(** * deploy.py: the gcloud AI Platform command front-end

    A shallow embedding of [src/deploy.py] and the properties of its
    command lines.  The script does three things: it configures an
    [argparse] parser with five sub-commands ([parse]), it builds one list
    of command tokens per sub-command ([deploy_local_train],
    [deploy_trainer], [deploy_local_batch_train], [deploy_batch_trainer],
    [deploy_predictor]) and hands that list to [subprocess.run], and it
    selects the builder from the parsed action ([main]).

    Python values are modelled by [pyval], an [argparse.Namespace] by a
    finite map from attribute names to values, exceptions by [exn], and
    the child process by an oracle from command lines to exit statuses
    together with a log of the commands handed to the operating system.
    The part of the standard library's [argparse] that [parse] relies on
    is modelled after CPython 3.11's [argparse.py]. *)

From Stdlib Require Import String Ascii List ZArith Bool Lia.
From stdpp Require Import base gmap strings list.

Local Open Scope Z_scope.
Local Open Scope list_scope.

(** ** Python strings *)

Module Str.

(** [s.startswith(p)] *)
Fixpoint startswith (s p : string) {struct p} : bool :=
  match p, s with
  | EmptyString, _ => true
  | String c p', String d s' => if Ascii.eqb c d then startswith s' p' else false
  | String _ _, EmptyString => false
  end.

(** [c in s] for a single character [c] *)
Fixpoint contains (c : ascii) (s : string) : bool :=
  match s with
  | EmptyString => false
  | String d s' => if Ascii.eqb c d then true else contains c s'
  end.

(** [s.split(c, 1)] when [c in s]: the text before the first [c] and the
    text after it. *)
Fixpoint split1 (c : ascii) (s : string) : option (string * string) :=
  match s with
  | EmptyString => None
  | String d s' =>
      if Ascii.eqb c d then Some (EmptyString, s')
      else match split1 c s' with
           | Some (a, b) => Some (String d a, b)
           | None => None
           end
  end.

(** [s.lstrip(c)] *)
Fixpoint lstrip (c : ascii) (s : string) : string :=
  match s with
  | String d s' => if Ascii.eqb c d then lstrip c s' else s
  | EmptyString => EmptyString
  end.

(** [s.replace(c, d)] for single characters *)
Fixpoint replace (c d : ascii) (s : string) : string :=
  match s with
  | EmptyString => EmptyString
  | String x s' => String (if Ascii.eqb c x then d else x) (replace c d s')
  end.

(** A string stands for the UTF-8 bytes of a Python [str].  The class
    [\d] of a [str] pattern holds every decimal digit of Unicode, not
    only the ASCII ones: the code points for which [str.isdecimal] is
    true, here those of Unicode 14.0, the version of CPython 3.11. *)
Definition decimal_ranges : list (N * N) :=
  [(48, 57); (1632, 1641); (1776, 1785); (1984, 1993);
   (2406, 2415); (2534, 2543); (2662, 2671); (2790, 2799);
   (2918, 2927); (3046, 3055); (3174, 3183); (3302, 3311);
   (3430, 3439); (3558, 3567); (3664, 3673); (3792, 3801);
   (3872, 3881); (4160, 4169); (4240, 4249); (6112, 6121);
   (6160, 6169); (6470, 6479); (6608, 6617); (6784, 6793);
   (6800, 6809); (6992, 7001); (7088, 7097); (7232, 7241);
   (7248, 7257); (42528, 42537); (43216, 43225); (43264, 43273);
   (43472, 43481); (43504, 43513); (43600, 43609); (44016, 44025);
   (65296, 65305); (66720, 66729); (68912, 68921); (69734, 69743);
   (69872, 69881); (69942, 69951); (70096, 70105); (70384, 70393);
   (70736, 70745); (70864, 70873); (71248, 71257); (71360, 71369);
   (71472, 71481); (71904, 71913); (72016, 72025); (72784, 72793);
   (73040, 73049); (73120, 73129); (92768, 92777); (92864, 92873);
   (93008, 93017); (120782, 120831); (123200, 123209); (123632, 123641);
   (125264, 125273); (130032, 130041)]%N.

Definition is_decimal (cp : N) : bool :=
  existsb (fun '(lo, hi) => (lo <=? cp)%N && (cp <=? hi)%N) decimal_ranges.

(** The six payload bits of a UTF-8 continuation byte. *)
Definition continuation (c : ascii) : option N :=
  let b := N_of_ascii c in
  if ((128 <=? b) && (b <? 192))%N then Some (b - 128)%N else None.

(** [s] is a sequence of decimal digits, each in well-formed UTF-8 of the
    shortest form: one byte below 128, or a lead byte and one, two or
    three continuation bytes.  Bytes that are not well-formed UTF-8 are
    no digit (Python decodes them to lone surrogates). *)
Fixpoint all_digits (s : string) : bool :=
  match s with
  | EmptyString => true
  | String c0 s1 =>
      let b0 := N_of_ascii c0 in
      if (b0 <? 128)%N then is_decimal b0 && all_digits s1
      else
        match s1 with
        | EmptyString => false
        | String c1 s2 =>
            if ((194 <=? b0) && (b0 <? 224))%N then
              match continuation c1 with
              | Some x1 => is_decimal ((b0 - 192) * 64 + x1)%N && all_digits s2
              | None => false
              end
            else
              match s2 with
              | EmptyString => false
              | String c2 s3 =>
                  if ((224 <=? b0) && (b0 <? 240))%N then
                    match continuation c1, continuation c2 with
                    | Some x1, Some x2 =>
                        let cp := ((b0 - 224) * 4096 + x1 * 64 + x2)%N in
                        (2048 <=? cp)%N && is_decimal cp && all_digits s3
                    | _, _ => false
                    end
                  else
                    match s3 with
                    | EmptyString => false
                    | String c3 s4 =>
                        if ((240 <=? b0) && (b0 <? 245))%N then
                          match continuation c1, continuation c2,
                                continuation c3 with
                          | Some x1, Some x2, Some x3 =>
                              let cp := ((b0 - 240) * 262144 + x1 * 4096
                                         + x2 * 64 + x3)%N in
                              (65536 <=? cp)%N && is_decimal cp && all_digits s4
                          | _, _, _ => false
                          end
                        else false
                    end
              end
        end
  end.

Definition nonempty (s : string) : bool :=
  match s with EmptyString => false | String _ _ => true end.

(** The regular expression anchor [$] also matches just before a final
    newline: the text a pattern ending in [$] has to cover. *)
Fixpoint before_final_newline (s : string) : string :=
  match s with
  | EmptyString => EmptyString
  | String c EmptyString => if Ascii.eqb c "010"%char then EmptyString else s
  | String c s' => String c (before_final_newline s')
  end.

(** [re.match('^-\d+$|^-\d*\.\d+$', s)] *)
Definition negative_number_like (s : string) : bool :=
  match s with
  | String c t =>
      let t := before_final_newline t in
      Ascii.eqb c "-"%char
      && ((nonempty t && all_digits t)
          || match split1 "."%char t with
             | Some (a, b) => all_digits a && nonempty b && all_digits b
             | None => false
             end)
  | EmptyString => false
  end.

End Str.

(** ** Python values, exceptions and results *)

(** The values an attribute of the parsed namespace can hold: [None] (the
    default of every argument), a string taken from the command line, or
    the empty list, which is what [argparse] stores for the explicit
    argument [--], as in [--name=--]. *)
Inductive pyval :=
  | PyNone
  | PyStr (s : string)
  | PyEmptyList.

#[global] Instance pyval_eq_dec : EqDecision pyval.
Proof. solve_decision. Defined.

(** [f'{v}']: how an f-string renders a value *)
Definition format_value (v : pyval) : string :=
  match v with
  | PyNone => "None"
  | PyStr s => s
  | PyEmptyList => "[]"
  end.

(** [v == 'literal'] *)
Definition py_eq_str (v : pyval) (lit : string) : bool :=
  match v with
  | PyStr s => String.eqb s lit
  | PyNone | PyEmptyList => false
  end.

(** What [ArgumentParser.error] reports before it exits with status 2. *)
Inductive usage_error :=
  | AmbiguousOption (arg : string) (matches : list string)
  | ExpectedOneArgument (option_string : string)
  | IgnoredExplicitArgument (explicit_arg : string)
  | InvalidChoice (value : string)
  | RequiredArguments (names : list string)
  | UnrecognizedArguments (extras : list string).

Inductive exn :=
  | UsageExit (e : usage_error)
      (* parser.error: usage and message on stderr, then sys.exit(2) *)
  | HelpExit
      (* the help action: print_help on stdout, then sys.exit(0) *)
  | AttributeError (attr : string)
  | TypeError
  | ValueError (msg : string)
  | OSError
  | CalledProcessError (returncode : Z) (cmd : list pyval).

Inductive res (A : Type) :=
  | Ret (a : A)
  | Raise (e : exn).
Arguments Ret {A} a.
Arguments Raise {A} e.

#[global] Instance res_ret : MRet res := fun _ a => Ret a.

#[global] Instance res_bind : MBind res := fun _ _ k m =>
  match m with
  | Ret a => k a
  | Raise e => Raise e
  end.

(** [getattr(args, attr)] on a namespace *)
Definition getattr (args : gmap string pyval) (attr : string) : res pyval :=
  match args !! attr with
  | Some v => Ret v
  | None => Raise (AttributeError attr)
  end.

(** ** The model of [argparse] *)

Module Argparse.

(** The two kinds of action the parsers of [deploy.py] contain: the help
    action every parser gets ([add_help=True]) and the [store] action of
    [add_argument('--name', required=...)], whose [nargs] is [None]. *)
Inductive action :=
  | Help
  | Store (option_string : string) (required : bool).

(** [add_argument] derives the attribute name from the option string:
    the prefix characters are stripped and [-] becomes [_]. *)
Definition dest_of (option_string : string) : string :=
  Str.replace "-"%char "_"%char (Str.lstrip "-"%char option_string).

(** [_option_string_actions], in insertion order *)
Definition option_map := list (string * action).

Fixpoint lookup_option (m : option_map) (s : string) : option action :=
  match m with
  | [] => None
  | (o, a) :: m' => if String.eqb o s then Some a else lookup_option m' s
  end.

(** An option tuple: the action (or [None] for an option this parser does
    not know), the option string and the explicit argument. *)
Definition option_tuple : Type := option action * string * option string.

Definition second_is_dash (s : string) : bool :=
  match s with
  | String _ (String c _) => Ascii.eqb c "-"%char
  | _ => false
  end.

(** [_get_option_tuples]: the interpretations of an abbreviated option *)
Definition get_option_tuples (m : option_map) (s : string) : list option_tuple :=
  if second_is_dash s then
    let '(option_prefix, explicit_arg) :=
      match Str.split1 "="%char s with
      | Some (a, b) => (a, Some b)
      | None => (s, None)
      end in
    omap (fun '(o, a) =>
            if Str.startswith o option_prefix
            then Some (Some a, o, explicit_arg) else None) m
  else
    let short_option_prefix := String.substring 0 2 s in
    let short_explicit_arg := String.substring 2 (String.length s - 2) s in
    omap (fun '(o, a) =>
            if String.eqb o short_option_prefix
            then Some (Some a, o, Some short_explicit_arg)
            else if Str.startswith o s
            then Some (Some a, o, None) else None) m.

(** [_parse_optional]: [None] when the string is an argument, an option
    tuple when it is an option; an ambiguous abbreviation is an error. *)
Definition parse_optional (m : option_map) (s : string) : res (option option_tuple) :=
  match s with
  | EmptyString => Ret None
  | String c _ =>
      if negb (Ascii.eqb c "-"%char) then Ret None
      else match lookup_option m s with
      | Some a => Ret (Some (Some a, s, None))
      | None =>
          if (String.length s =? 1)%nat then Ret None
          else
            let by_equals :=
              match Str.split1 "="%char s with
              | Some (o, e) =>
                  match lookup_option m o with
                  | Some a => Some (Some a, o, Some e)
                  | None => None
                  end
              | None => None
              end in
            match by_equals with
            | Some t => Ret (Some t)
            | None =>
                match get_option_tuples m s with
                | (_ :: _ :: _) as ts =>
                    Raise (UsageExit (AmbiguousOption s (map (fun t => snd (fst t)) ts)))
                | [t] => Ret (Some t)
                | [] =>
                    if Str.negative_number_like s then Ret None
                    else if Str.contains " "%char s then Ret None
                    else Ret (Some (None, s, None))
                end
            end
      end
  end.

(** The letters of [arg_strings_pattern]: [A] for an argument, [-] for
    the first [--], [O] for an option with its tuple. *)
Inductive arg_class :=
  | ClsA
  | ClsDash
  | ClsO (t : option_tuple).

(** The first loop of [_parse_known_args]: everything after the first
    [--] is an argument. *)
Fixpoint classify (m : option_map) (arg_strings : list string)
  : res (list (string * arg_class)) :=
  match arg_strings with
  | [] => Ret []
  | s :: rest =>
      if String.eqb s "--" then Ret ((s, ClsDash) :: map (fun x => (x, ClsA)) rest)
      else t ← parse_optional m s;
           cs ← classify m rest;
           Ret ((s, match t with Some t => ClsO t | None => ClsA end) :: cs)
  end.

(** What [_parse_known_args] accumulates: the namespace, the option
    strings of the store actions taken ([seen_actions]), the strings no
    action consumed ([extras]) and the strings a sub-parser left over
    (the namespace attribute [_UNRECOGNIZED_ARGS_ATTR]). *)
Record parse_state := {
  ns : gmap string pyval;
  seen : list string;
  extras : list string;
  unrecognized : list string
}.

Definition add_extra (s : string) (st : parse_state) : parse_state :=
  {| ns := ns st; seen := seen st; extras := extras st ++ [s];
     unrecognized := unrecognized st |}.

(** [_get_values] for a store action, which is given one argument
    string: the first [--] among the argument strings is removed; the
    string that is left is the value, and when none is left the value is
    the empty list. *)
Definition get_values (arg_string : string) : pyval :=
  if String.eqb arg_string "--" then PyEmptyList else PyStr arg_string.

(** [take_action] for a store action: [setattr(namespace, dest, value)] *)
Definition store (option_string value : string) (st : parse_state) : parse_state :=
  {| ns := <[dest_of option_string := get_values value]> (ns st);
     seen := option_string :: seen st;
     extras := extras st;
     unrecognized := unrecognized st |}.

(** The [while True] loop of [consume_optional] once a help flag came
    with an explicit argument [e], as in [-hx]: the rest of the string is
    read as further single-dash flags.  The result is [None] when the
    string was used up or ended in a store option with its value
    attached, and the option string of the store option when that option
    still needs the next argument string.  Every way out of the loop
    without an error is followed by the help action. *)
Fixpoint split_flags (m : option_map) (o e : string) : res (option string) :=
  match e with
  | EmptyString => Raise (UsageExit (IgnoredExplicitArgument e))
  | String c e' =>
      if second_is_dash o then Raise (UsageExit (IgnoredExplicitArgument e))
      else
        let o' := String.substring 0 1 o +:+ String c EmptyString in
        match lookup_option m o' with
        | None => Raise (UsageExit (IgnoredExplicitArgument e))
        | Some (Store _ _) =>
            match e' with
            | EmptyString => Ret (Some o')
            | _ => Ret None
            end
        | Some Help =>
            match e' with
            | EmptyString => Ret None
            | _ => split_flags m o' e'
            end
        end
  end.

(** The pattern of [nargs=PARSER] matched at the start of what is left:
    any number of [-], then one [A], then anything.  The sub-parser
    argument needs one argument string, possibly after [--]. *)
Fixpoint parser_nargs_matches (toks : list (string * arg_class)) : bool :=
  match toks with
  | (_, ClsDash) :: rest => parser_nargs_matches rest
  | (_, ClsA) :: _ => true
  | _ => false
  end.

(** The sub-parser action of a parser, when it has one: from the parser
    name, the remaining strings and the namespace to the new namespace
    and the strings the sub-parser did not recognise. *)
Definition positional : Type :=
  string -> list string -> gmap string pyval -> res (gmap string pyval * list string).

(** The second loop of [_parse_known_args]: options and positionals are
    consumed from left to right.  An option this parser does not know and
    an argument string no positional takes go to [extras]; a store
    option takes its explicit argument or the next string when that is
    an argument; the sub-parser action takes everything that is left. *)
Fixpoint consume (m : option_map) (pos : option positional)
    (toks : list (string * arg_class)) (st : parse_state) : res parse_state :=
  match toks with
  | [] => Ret st
  | (s, ClsO (None, _, _)) :: rest => consume m pos rest (add_extra s st)
  | (s, ClsO (Some Help, o, None)) :: rest => Raise HelpExit
  | (s, ClsO (Some Help, o, Some e)) :: rest =>
      last ← split_flags m o e;
      match last, rest with
      | Some o', (_, ClsA) :: _ => Raise HelpExit
      | Some o', _ => Raise (UsageExit (ExpectedOneArgument o'))
      | None, _ => Raise HelpExit
      end
  | (s, ClsO (Some (Store _ _), o, Some e)) :: rest =>
      consume m pos rest (store o e st)
  | (s, ClsO (Some (Store _ _), o, None)) :: rest =>
      match rest with
      | (v, ClsA) :: rest' => consume m pos rest' (store o v st)
      | _ => Raise (UsageExit (ExpectedOneArgument o))
      end
  | (s, _) :: rest =>
      match pos with
      | Some sub =>
          if parser_nargs_matches toks then
            '(ns', unrec) ← sub s (map fst rest) (ns st);
            Ret {| ns := ns'; seen := seen st; extras := extras st;
                   unrecognized := unrecognized st ++ unrec |}
          else consume m pos rest (add_extra s st)
      | None => consume m pos rest (add_extra s st)
      end
  end.

(** The names of the required actions that were not seen. *)
Definition missing_required (m : option_map) (seen : list string) : list string :=
  omap (fun '(o, a) =>
          match a with
          | Store o' true => if bool_decide (o' ∈ seen) then None else Some o'
          | _ => None
          end) m.

(** [parse_known_args]: the namespace starts from [defaults]; the result
    is the namespace and the strings left over. *)
Definition parse_known_args (m : option_map) (pos : option positional)
    (defaults : gmap string pyval) (arg_strings : list string)
  : res (gmap string pyval * list string) :=
  toks ← classify m arg_strings;
  st ← consume m pos toks
         {| ns := defaults; seen := []; extras := []; unrecognized := [] |};
  match missing_required m (seen st) with
  | [] => Ret (ns st, extras st ++ unrecognized st)
  | names => Raise (UsageExit (RequiredArguments names))
  end.

(** A parser made by [add_parser(name)]: the [add_argument] calls on it,
    each with its option string and its [required] flag. *)
Definition arguments := list (string * bool).

Definition option_map_of (args : arguments) : option_map :=
  ("-h", Help) :: ("--help", Help) :: map (fun '(o, r) => (o, Store o r)) args.

(** Every store action has the default [None]. *)
Definition defaults_of (args : arguments) : gmap string pyval :=
  foldr (fun '(o, _) d => <[dest_of o := PyNone]> d) ∅ args.

Fixpoint lookup_parser (name : string) (parsers : list (string * arguments))
  : option arguments :=
  match parsers with
  | [] => None
  | (n, p) :: rest => if String.eqb n name then Some p else lookup_parser name rest
  end.

(** [_SubParsersAction]: the parser name is checked against the choices,
    stored under [dest], and the chosen parser parses what follows into a
    namespace of its own, which is then copied over. *)
Definition subparsers_action (dest : string) (parsers : list (string * arguments))
  : positional :=
  fun parser_name arg_strings namespace =>
    match lookup_parser parser_name parsers with
    | None => Raise (UsageExit (InvalidChoice parser_name))
    | Some p =>
        '(subnamespace, rest) ←
          parse_known_args (option_map_of p) None (defaults_of p) arg_strings;
        Ret (subnamespace ∪ <[dest := PyStr parser_name]> namespace, rest)
    end.

(** [ArgumentParser.parse_args] of a parser whose only argument is
    [add_subparsers(dest=dest)], not required. *)
Definition parse_args (dest : string) (parsers : list (string * arguments))
    (args : list string) : res (gmap string pyval) :=
  '(namespace, argv) ←
    parse_known_args (option_map_of []) (Some (subparsers_action dest parsers))
      {[ dest := PyNone ]} args;
  match argv with
  | [] => Ret namespace
  | _ => Raise (UsageExit (UnrecognizedArguments argv))
  end.

End Argparse.

(** ** [parse] *)

Definition local_train_parser : Argparse.arguments := [].

Definition train_parser : Argparse.arguments :=
  [("--bucket", true); ("--path", true); ("--name", true)].

Definition local_batch_train_parser : Argparse.arguments :=
  [("--project", true); ("--dataset_table", true)].

Definition batch_train_parser : Argparse.arguments :=
  [("--bucket", true); ("--name", true); ("--project", true);
   ("--dataset_table", true)].

Definition predict_parser : Argparse.arguments :=
  [("--version", true); ("--model", true); ("--origin", true);
   ("--package-path", true)].

Definition sub_parsers : list (string * Argparse.arguments) :=
  [("local_train", local_train_parser);
   ("train", train_parser);
   ("local_batch_train", local_batch_train_parser);
   ("batch_train", batch_train_parser);
   ("predict", predict_parser)].

(** [parse()] reads [sys.argv[1:]], here the parameter [argv]. *)
Definition parse (argv : list string) : res (gmap string pyval) :=
  Argparse.parse_args "action" sub_parsers argv.

(** ** The child process *)

(** [subprocess.CompletedProcess]: the command and the exit status of the
    child. *)
Record CompletedProcess := {
  cp_args : list pyval;
  returncode : Z
}.

(** The commands handed to the operating system so far, oldest first. *)
Definition world : Type := list (list string).

(** Code that may start processes and may raise. *)
Definition io (A : Type) : Type := world -> res A * world.

#[global] Instance io_ret : MRet io := fun _ a w => (Ret a, w).

#[global] Instance io_bind : MBind io := fun _ _ k m w =>
  match m w with
  | (Ret a, w') => k a w'
  | (Raise e, w') => (Raise e, w')
  end.

Definition lift {A} (r : res A) : io A := fun w => (r, w).

(** The strings of a command, when all of its tokens are strings. *)
Fixpoint command_strings (command : list pyval) : option (list string) :=
  match command with
  | [] => Some []
  | PyStr s :: rest =>
      match command_strings rest with
      | Some l => Some (s :: l)
      | None => None
      end
  | (PyNone | PyEmptyList) :: _ => None
  end.

(** [CompletedProcess.check_returncode]: raise when the exit status is not
    zero. *)
Definition check_returncode (result : CompletedProcess) : res unit :=
  if returncode result =? 0 then Ret ()
  else Raise (CalledProcessError (returncode result) (cp_args result)).

Section Deploy.

(** The operating system: the exit status of the child started with a
    command line, or [None] when the child cannot be started. *)
Variable os_run : list string -> option Z.

(** [subprocess.run(command)]: a token that is not a string is a
    [TypeError] before anything is started; otherwise the command goes to
    the operating system and the call waits for the child. *)
Definition subprocess_run (command : list pyval) : io CompletedProcess :=
  fun w =>
    match command_strings command with
    | None => (Raise TypeError, w)
    | Some argv =>
        match os_run argv with
        | Some status =>
            (Ret {| cp_args := command; returncode := status |}, w ++ [argv])
        | None => (Raise OSError, w ++ [argv])
        end
    end.

(** *** The five commands

    Each [deploy_*] function binds the local [command] to a list of
    tokens, runs it and checks the exit status.  The list is given its
    own definition, [deploy_*_command]. *)

Definition deploy_local_train_command (args : gmap string pyval) : res (list pyval) :=
  Ret [PyStr "powershell.exe";
       PyStr "gcloud"; PyStr "ai-platform"; PyStr "local"; PyStr "train";
       PyStr "--package-path"; PyStr "modeling";
       PyStr "--module-name"; PyStr "modeling.trainer.model";
       PyStr "--job-dir"; PyStr "local-training-output";
       PyStr "--";
       PyStr "--run_location=local";
       PyStr "--bucket=None"].

Definition deploy_local_train (args : gmap string pyval) : io unit :=
  command ← lift (deploy_local_train_command args);
  result ← subprocess_run command;
  lift (check_returncode result).

Definition deploy_trainer_command (args : gmap string pyval) : res (list pyval) :=
  name ← getattr args "name";
  bucket ← getattr args "bucket";
  path ← getattr args "path";
  Ret [PyStr "powershell.exe";
       PyStr "gcloud"; PyStr "ai-platform";
       PyStr "jobs"; PyStr "submit"; PyStr "training";
       name;
       PyStr "--package-path"; PyStr "modeling";
       PyStr "--module-name"; PyStr "modeling.trainer.model";
       PyStr "--staging-bucket"; PyStr ("gs://" +:+ format_value bucket);
       PyStr "--python-version"; PyStr "3.7";
       PyStr "--runtime-version"; PyStr "1.15";
       PyStr "--";
       PyStr ("--bucket=" +:+ format_value bucket);
       PyStr ("--path=" +:+ format_value path)].

Definition deploy_trainer (args : gmap string pyval) : io unit :=
  command ← lift (deploy_trainer_command args);
  result ← subprocess_run command;
  lift (check_returncode result).

Definition deploy_local_batch_train_command (args : gmap string pyval)
  : res (list pyval) :=
  project ← getattr args "project";
  dataset_table ← getattr args "dataset_table";
  Ret [PyStr "powershell.exe";
       PyStr "gcloud"; PyStr "ai-platform"; PyStr "local"; PyStr "train";
       PyStr "--package-path"; PyStr "modeling";
       PyStr "--module-name"; PyStr "modeling.trainer.batch_model";
       PyStr "--job-dir"; PyStr "local-training-output";
       PyStr "--";
       PyStr "--run_location=local";
       PyStr "--bucket=None";
       PyStr ("--project=" +:+ format_value project);
       PyStr ("--dataset_table=" +:+ format_value dataset_table)].

Definition deploy_local_batch_train (args : gmap string pyval) : io unit :=
  command ← lift (deploy_local_batch_train_command args);
  result ← subprocess_run command;
  lift (check_returncode result).

Definition deploy_batch_trainer_command (args : gmap string pyval)
  : res (list pyval) :=
  name ← getattr args "name";
  bucket ← getattr args "bucket";
  project ← getattr args "project";
  dataset_table ← getattr args "dataset_table";
  Ret [PyStr "powershell.exe";
       PyStr "gcloud"; PyStr "ai-platform";
       PyStr "jobs"; PyStr "submit"; PyStr "training";
       name;
       PyStr "--package-path"; PyStr "modeling";
       PyStr "--module-name"; PyStr "modeling.trainer.batch_model";
       PyStr "--staging-bucket"; PyStr ("gs://" +:+ format_value bucket);
       PyStr "--python-version"; PyStr "3.7";
       PyStr "--runtime-version"; PyStr "1.15";
       PyStr "--";
       PyStr ("--bucket=" +:+ format_value bucket);
       PyStr ("--project=" +:+ format_value project);
       PyStr ("--dataset_table=" +:+ format_value dataset_table)].

Definition deploy_batch_trainer (args : gmap string pyval) : io unit :=
  command ← lift (deploy_batch_trainer_command args);
  result ← subprocess_run command;
  lift (check_returncode result).

Definition deploy_predictor_command (args : gmap string pyval) : res (list pyval) :=
  version ← getattr args "version";
  model ← getattr args "model";
  origin ← getattr args "origin";
  package_path ← getattr args "package_path";
  Ret [PyStr "powershell.exe";
       PyStr "gcloud"; PyStr "beta"; PyStr "ai-platform";
       PyStr "versions"; PyStr "create"; PyStr (format_value version);
       PyStr "--model"; PyStr (format_value model);
       PyStr "--runtime-version"; PyStr "1.15";
       PyStr "--python-version"; PyStr "3.7";
       PyStr "--origin"; PyStr (format_value origin);
       PyStr "--package-uris"; PyStr (format_value package_path);
       PyStr "--prediction-class"; PyStr "modeling.predictor.predictor.Predictor";
       PyStr "--verbosity=debug"].

Definition deploy_predictor (args : gmap string pyval) : io unit :=
  command ← lift (deploy_predictor_command args);
  result ← subprocess_run command;
  lift (check_returncode result).

(** *** [main] *)

(** [args.action == name] *)
Definition action_is (args : gmap string pyval) (name : string) : io bool :=
  lift (action ← getattr args "action"; Ret (py_eq_str action name)).

Definition quote : string := String (ascii_of_nat 34) EmptyString.

(** The [if]/[elif] chain of [main] and its final [raise]. *)
Definition dispatch (args : gmap string pyval) : io unit :=
  b ← action_is args "local_train";
  if (b : bool) then deploy_local_train args else
  ((b ← action_is args "train";
  if (b : bool) then deploy_trainer args else
  ((b ← action_is args "local_batch_train";
  if (b : bool) then deploy_local_batch_train args else
  ((b ← action_is args "batch_train";
  if (b : bool) then deploy_batch_trainer args else
  ((b ← action_is args "predict";
  if (b : bool) then deploy_predictor args else
  ((action ← lift (getattr args "action");
  lift (Raise (ValueError
    ("Unknown action " +:+ quote +:+ format_value action +:+ quote))))
  : io unit)) : io unit)) : io unit)) : io unit)) : io unit).

Definition main (argv : list string) : io unit :=
  args ← lift (parse argv);
  dispatch args.

End Deploy.

(** The exit status of the interpreter after [main()]: 0 when it returns,
    the status given to [sys.exit] by [argparse], and 1 for any other
    exception, which nothing catches. *)
Definition exit_status (r : res unit) : Z :=
  match r with
  | Ret _ => 0
  | Raise (UsageExit _) => 2
  | Raise HelpExit => 0
  | Raise _ => 1
  end.

(** The five actions of [main] with the function each one selects and the
    command that function builds. *)
Definition actions (os_run : list string -> option Z)
  : list (string * ((gmap string pyval -> io unit)
                    * (gmap string pyval -> res (list pyval)))) :=
  [("local_train", (deploy_local_train os_run, deploy_local_train_command));
   ("train", (deploy_trainer os_run, deploy_trainer_command));
   ("local_batch_train",
     (deploy_local_batch_train os_run, deploy_local_batch_train_command));
   ("batch_train", (deploy_batch_trainer os_run, deploy_batch_trainer_command));
   ("predict", (deploy_predictor os_run, deploy_predictor_command))].

(** The command handed to the operating system during a run from the
    world [w]: what the run appended to the log. *)
Definition launched_by {A} (run : io A) (w : world) (cmds : list (list string)) : Prop :=
  snd (run w) = w ++ cmds.

(** Building the command, running it and checking the exit status, as
    every [deploy_*] function does. *)
Definition run_checked (os_run : list string -> option Z)
    (command : res (list pyval)) : io unit :=
  command ← lift command;
  result ← subprocess_run os_run command;
  lift (check_returncode result).

(** ** What a command line says about an option *)

(** The part of an argument string that names an option: the text before
    the first [=], or the whole string. *)
Definition option_head (tok : string) : string :=
  match Str.split1 "="%char tok with
  | Some (a, _) => a
  | None => tok
  end.

(** [tok] names the option [o]: it starts with [--], it is not the
    separator [--] itself, and its head is [o] or an abbreviation of it,
    as in [--bucket], [--bucket=b1], [--buck] or [--b=b1]. *)
Definition names_option (o tok : string) : bool :=
  Str.startswith tok "--" && negb (String.eqb tok "--")
  && Str.startswith o (option_head tok).

(** [s] consists of the letter [h] only. *)
Fixpoint all_h (s : string) : bool :=
  match s with
  | EmptyString => true
  | String c s' => Ascii.eqb c "h"%char && all_h s'
  end.

(** [tok] asks for help: it is [--help] or one of its abbreviations
    [--h], [--he] and [--hel], or it is the flag [-h], alone or repeated
    in one string, as in [-hh] and [-h=h]. *)
Definition asks_help (tok : string) : bool :=
  existsb (String.eqb tok) ["--h"; "--he"; "--hel"; "--help"]
  || match tok with
     | String c1 (String c2 x) =>
         Ascii.eqb c1 "-"%char && Ascii.eqb c2 "h"%char
         && (all_h x
             || match x with
                | String c3 y => Ascii.eqb c3 "="%char && Str.nonempty y && all_h y
                | EmptyString => false
                end)
     | _ => false
     end.

(** The parser of the command line itself reads [tok] as an option: the
    string starts with [-], it is longer than that, it is not the
    separator [--], it is not like a negative number and it holds no
    space.  The strings before the action are of this kind. *)
Definition option_like (tok : string) : bool :=
  negb (String.eqb tok "--")
  && match Argparse.parse_optional (Argparse.option_map_of []) tok with
     | Ret (Some _) => true
     | _ => false
     end.

(** The arguments [parse] adds are all required long options. *)
Definition required_long_options (p : Argparse.arguments) : bool :=
  forallb (fun '(o, r) =>
             Str.startswith o "--" && negb (String.eqb o "--")
             && negb (Str.contains "="%char o) && r) p.

(** ** Example namespaces

    The namespaces [parse] returns for
    [train --bucket b1 --path p1 --name job1] and for complete
    batch_train and predict command lines. *)
Definition train_example : gmap string pyval :=
  {[ "action" := PyStr "train"; "bucket" := PyStr "b1";
     "path" := PyStr "p1"; "name" := PyStr "job1" ]}.

Definition batch_train_example : gmap string pyval :=
  {[ "action" := PyStr "batch_train"; "bucket" := PyStr "b1";
     "name" := PyStr "job1"; "project" := PyStr "proj";
     "dataset_table" := PyStr "ds.tbl" ]}.

Definition predict_example : gmap string pyval :=
  {[ "action" := PyStr "predict"; "version" := PyStr "v1";
     "model" := PyStr "m1"; "origin" := PyStr "gs://b1/model";
     "package_path" := PyStr "gs://b1/pkg.tar.gz" ]}.

(** ** Further definitions *)

(** The two ways [argparse] ends the process: the help text or a usage
    error. *)
Definition parser_exit (e : exn) : Prop :=
  e = HelpExit \/ exists u, e = UsageExit u.

(** The namespace [parse] returns for [local_train]. *)
Definition local_train_example : gmap string pyval :=
  {[ "action" := PyStr "local_train" ]}.

(** A namespace for local_batch_train, one for train without the job
    name, and one for train whose job name is [None]. *)
Definition local_batch_train_example : gmap string pyval :=
  {[ "action" := PyStr "local_batch_train"; "project" := PyStr "proj";
     "dataset_table" := PyStr "ds.tbl" ]}.

Definition train_without_name : gmap string pyval :=
  {[ "action" := PyStr "train"; "bucket" := PyStr "b1"; "path" := PyStr "p1" ]}.

Definition train_with_none_name : gmap string pyval :=
  {[ "action" := PyStr "train"; "bucket" := PyStr "b1"; "path" := PyStr "p1";
     "name" := PyNone ]}.

(** * Properties *)

(** ** Running a command *)

Section Running.

Variable os_run : list string -> option Z.

Lemma actions_run_checked name deploy build :
  (name, (deploy, build)) ∈ actions os_run ->
  forall args, deploy args = run_checked os_run (build args).
Proof.
  unfold actions. rewrite !elem_of_cons, elem_of_nil.
  intros H args.
  repeat (destruct H as [H | H]; [by simplify_eq |]).
  done.
Qed.

Lemma run_checked_raise e w : run_checked os_run (Raise e) w = (Raise e, w).
Proof. reflexivity. Qed.

Lemma run_checked_status cmd strs status w :
  command_strings cmd = Some strs ->
  os_run strs = Some status ->
  run_checked os_run (Ret cmd) w
  = (if status =? 0 then Ret () else Raise (CalledProcessError status cmd),
     w ++ [strs]).
Proof.
  intros Hs Ho.
  unfold run_checked, subprocess_run, lift, mbind, io_bind.
  rewrite Hs, Ho. unfold check_returncode. simpl.
  by destruct (status =? 0).
Qed.

(** Whatever happens, a run hands at most the built command to the
    operating system, and it does so exactly when all tokens are
    strings. *)
Lemma run_checked_launched command w :
  launched_by (run_checked os_run command) w
    match command with
    | Ret cmd =>
        match command_strings cmd with
        | Some strs => [strs]
        | None => []
        end
    | Raise _ => []
    end.
Proof.
  unfold launched_by, run_checked, subprocess_run, lift, mbind, io_bind.
  destruct command as [cmd | e]; simpl; [| by rewrite app_nil_r].
  destruct (command_strings cmd) as [strs |]; simpl; [| by rewrite app_nil_r].
  destruct (os_run strs) as [status |]; simpl; [| done].
  unfold check_returncode; simpl. by destruct (status =? 0).
Qed.

End Running.

(** ** The selection of [main] *)

Lemma dispatch_action os_run args name deploy build w :
  args !! "action" = Some (PyStr name) ->
  (name, (deploy, build)) ∈ actions os_run ->
  dispatch os_run args w = deploy args w.
Proof.
  intros Ha. unfold actions. rewrite !elem_of_cons, elem_of_nil.
  intros H.
  repeat (destruct H as [H | H];
          [ simplify_eq; unfold dispatch, action_is, lift, getattr;
            unfold mbind, io_bind, res_bind; rewrite Ha; reflexivity |]).
  done.
Qed.

(** ** The command of each action *)

Lemma parse_train_example :
  parse ["train"; "--bucket"; "b1"; "--path"; "p1"; "--name"; "job1"]
  = Ret train_example.
Proof. vm_compute. reflexivity. Qed.

Lemma parse_batch_train_example :
  parse ["batch_train"; "--bucket"; "b1"; "--name"; "job1";
         "--project"; "proj"; "--dataset_table"; "ds.tbl"]
  = Ret batch_train_example.
Proof. vm_compute. reflexivity. Qed.

Lemma parse_predict_example :
  parse ["predict"; "--version"; "v1"; "--model"; "m1";
         "--origin"; "gs://b1/model"; "--package-path"; "gs://b1/pkg.tar.gz"]
  = Ret predict_example.
Proof. vm_compute. reflexivity. Qed.

Ltac read_attributes :=
  unfold getattr, mbind, res_bind;
  repeat match goal with
         | H : ?args !! ?k = Some _ |- context [?args !! ?k] => rewrite H
         end.

(** C1. For the train action with bucket [b], path [p] and name [n] the
    command is the list below: the job name is the seventh token, the
    staging bucket [gs://b] follows [--staging-bucket], the python and
    runtime versions are 3.7 and 1.15, and [--bucket=b] and [--path=p]
    follow the separator.  These are the strings handed to the operating
    system, whatever the oracle and the log are. *)
Theorem train_command_tokens (args : gmap string pyval) (bucket path name : string) :
  args !! "bucket" = Some (PyStr bucket) ->
  args !! "path" = Some (PyStr path) ->
  args !! "name" = Some (PyStr name) ->
  deploy_trainer_command args
  = Ret [PyStr "powershell.exe"; PyStr "gcloud"; PyStr "ai-platform";
         PyStr "jobs"; PyStr "submit"; PyStr "training";
         PyStr name;
         PyStr "--package-path"; PyStr "modeling";
         PyStr "--module-name"; PyStr "modeling.trainer.model";
         PyStr "--staging-bucket"; PyStr ("gs://" +:+ bucket);
         PyStr "--python-version"; PyStr "3.7";
         PyStr "--runtime-version"; PyStr "1.15";
         PyStr "--";
         PyStr ("--bucket=" +:+ bucket);
         PyStr ("--path=" +:+ path)]
  /\ forall os_run w,
      launched_by (deploy_trainer os_run args) w
        [["powershell.exe"; "gcloud"; "ai-platform";
          "jobs"; "submit"; "training"; name;
          "--package-path"; "modeling";
          "--module-name"; "modeling.trainer.model";
          "--staging-bucket"; "gs://" +:+ bucket;
          "--python-version"; "3.7";
          "--runtime-version"; "1.15";
          "--"; "--bucket=" +:+ bucket; "--path=" +:+ path]].
Proof.
  intros Hb Hp Hn.
  assert (deploy_trainer_command args = Ret [PyStr "powershell.exe"; PyStr "gcloud"; PyStr "ai-platform";
         PyStr "jobs"; PyStr "submit"; PyStr "training";
         PyStr name;
         PyStr "--package-path"; PyStr "modeling";
         PyStr "--module-name"; PyStr "modeling.trainer.model";
         PyStr "--staging-bucket"; PyStr ("gs://" +:+ bucket);
         PyStr "--python-version"; PyStr "3.7";
         PyStr "--runtime-version"; PyStr "1.15";
         PyStr "--";
         PyStr ("--bucket=" +:+ bucket);
         PyStr ("--path=" +:+ path)]) as Hcmd.
  { unfold deploy_trainer_command. read_attributes. reflexivity. }
  split; [exact Hcmd |].
  intros os_run w.
  change (deploy_trainer os_run args)
    with (run_checked os_run (deploy_trainer_command args)).
  rewrite Hcmd. exact (run_checked_launched os_run (Ret _) w).
Qed.

Lemma train_command_tokens_witness :
  deploy_trainer_command train_example
  = Ret [PyStr "powershell.exe"; PyStr "gcloud"; PyStr "ai-platform";
         PyStr "jobs"; PyStr "submit"; PyStr "training";
         PyStr "job1";
         PyStr "--package-path"; PyStr "modeling";
         PyStr "--module-name"; PyStr "modeling.trainer.model";
         PyStr "--staging-bucket"; PyStr "gs://b1";
         PyStr "--python-version"; PyStr "3.7";
         PyStr "--runtime-version"; PyStr "1.15";
         PyStr "--"; PyStr "--bucket=b1"; PyStr "--path=p1"].
Proof.
  apply (proj1 (train_command_tokens train_example "b1" "p1" "job1"
                  eq_refl eq_refl eq_refl)).
Defined.

(** C5. The local_train command is one constant list, whatever the
    namespace holds: it names the module [modeling.trainer.model] and the
    output directory [local-training-output] and ends with the
    placeholders [--run_location=local] and [--bucket=None].  It is what
    the operating system receives. *)
Theorem local_train_command_constant (args : gmap string pyval) :
  deploy_local_train_command args
  = Ret [PyStr "powershell.exe"; PyStr "gcloud"; PyStr "ai-platform";
         PyStr "local"; PyStr "train";
         PyStr "--package-path"; PyStr "modeling";
         PyStr "--module-name"; PyStr "modeling.trainer.model";
         PyStr "--job-dir"; PyStr "local-training-output";
         PyStr "--"; PyStr "--run_location=local"; PyStr "--bucket=None"]
  /\ forall os_run w,
      launched_by (deploy_local_train os_run args) w
        [["powershell.exe"; "gcloud"; "ai-platform"; "local"; "train";
          "--package-path"; "modeling";
          "--module-name"; "modeling.trainer.model";
          "--job-dir"; "local-training-output";
          "--"; "--run_location=local"; "--bucket=None"]].
Proof.
  split; [reflexivity |].
  intros os_run w.
  exact (run_checked_launched os_run (deploy_local_train_command args) w).
Qed.

(** C6. For the predict action the command creates a model version: the
    version, the model, the origin and the package path are the four
    interpolated tokens, the runtime version is 1.15, the python version
    3.7 and the prediction class
    [modeling.predictor.predictor.Predictor]. *)
Theorem predict_command_tokens (args : gmap string pyval)
    (version model origin package_path : string) :
  args !! "version" = Some (PyStr version) ->
  args !! "model" = Some (PyStr model) ->
  args !! "origin" = Some (PyStr origin) ->
  args !! "package_path" = Some (PyStr package_path) ->
  deploy_predictor_command args
  = Ret [PyStr "powershell.exe"; PyStr "gcloud"; PyStr "beta";
         PyStr "ai-platform"; PyStr "versions"; PyStr "create";
         PyStr version;
         PyStr "--model"; PyStr model;
         PyStr "--runtime-version"; PyStr "1.15";
         PyStr "--python-version"; PyStr "3.7";
         PyStr "--origin"; PyStr origin;
         PyStr "--package-uris"; PyStr package_path;
         PyStr "--prediction-class";
         PyStr "modeling.predictor.predictor.Predictor";
         PyStr "--verbosity=debug"].
Proof.
  intros Hv Hm Ho Hp.
  unfold deploy_predictor_command. read_attributes. reflexivity.
Qed.

Lemma predict_command_tokens_witness :
  deploy_predictor_command predict_example
  = Ret [PyStr "powershell.exe"; PyStr "gcloud"; PyStr "beta";
         PyStr "ai-platform"; PyStr "versions"; PyStr "create";
         PyStr "v1";
         PyStr "--model"; PyStr "m1";
         PyStr "--runtime-version"; PyStr "1.15";
         PyStr "--python-version"; PyStr "3.7";
         PyStr "--origin"; PyStr "gs://b1/model";
         PyStr "--package-uris"; PyStr "gs://b1/pkg.tar.gz";
         PyStr "--prediction-class";
         PyStr "modeling.predictor.predictor.Predictor";
         PyStr "--verbosity=debug"].
Proof.
  apply (predict_command_tokens predict_example
           "v1" "m1" "gs://b1/model" "gs://b1/pkg.tar.gz"
           eq_refl eq_refl eq_refl eq_refl).
Defined.

(** C7. The batch_train command has the shape of the train command with
    the module [modeling.trainer.batch_model]: the job name and the
    [gs://] staging bucket are interpolated at the same places, and the
    project and the dataset table follow the separator.  The first
    nineteen tokens are those of the train command but for the module
    name. *)
Theorem batch_train_command_tokens (args : gmap string pyval)
    (bucket name project dataset_table : string) :
  args !! "bucket" = Some (PyStr bucket) ->
  args !! "name" = Some (PyStr name) ->
  args !! "project" = Some (PyStr project) ->
  args !! "dataset_table" = Some (PyStr dataset_table) ->
  exists cmd,
    deploy_batch_trainer_command args = Ret cmd
    /\ cmd = [PyStr "powershell.exe"; PyStr "gcloud"; PyStr "ai-platform";
              PyStr "jobs"; PyStr "submit"; PyStr "training";
              PyStr name;
              PyStr "--package-path"; PyStr "modeling";
              PyStr "--module-name"; PyStr "modeling.trainer.batch_model";
              PyStr "--staging-bucket"; PyStr ("gs://" +:+ bucket);
              PyStr "--python-version"; PyStr "3.7";
              PyStr "--runtime-version"; PyStr "1.15";
              PyStr "--";
              PyStr ("--bucket=" +:+ bucket);
              PyStr ("--project=" +:+ project);
              PyStr ("--dataset_table=" +:+ dataset_table)]
    /\ forall path,
        deploy_trainer_command (<["path" := PyStr path]> args)
        = Ret (<[10%nat := PyStr "modeling.trainer.model"]> (take 19 cmd)
               ++ [PyStr ("--path=" +:+ path)]).
Proof.
  intros Hb Hn Hp Hd. eexists. split.
  { unfold deploy_batch_trainer_command. read_attributes. reflexivity. }
  split; [reflexivity |].
  - intros path. unfold deploy_trainer_command, getattr, mbind, res_bind.
    rewrite lookup_insert_ne, Hn by done.
    rewrite lookup_insert_ne, Hb by done.
    rewrite lookup_insert_eq. reflexivity.
Qed.

Lemma batch_train_command_tokens_witness :
  exists cmd,
    deploy_batch_trainer_command batch_train_example = Ret cmd
    /\ cmd = [PyStr "powershell.exe"; PyStr "gcloud"; PyStr "ai-platform";
              PyStr "jobs"; PyStr "submit"; PyStr "training";
              PyStr "job1";
              PyStr "--package-path"; PyStr "modeling";
              PyStr "--module-name"; PyStr "modeling.trainer.batch_model";
              PyStr "--staging-bucket"; PyStr "gs://b1";
              PyStr "--python-version"; PyStr "3.7";
              PyStr "--runtime-version"; PyStr "1.15";
              PyStr "--";
              PyStr "--bucket=b1";
              PyStr "--project=proj";
              PyStr "--dataset_table=ds.tbl"]
    /\ forall path,
        deploy_trainer_command (<["path" := PyStr path]> batch_train_example)
        = Ret (<[10%nat := PyStr "modeling.trainer.model"]> (take 19 cmd)
               ++ [PyStr ("--path=" +:+ path)]).
Proof.
  apply (batch_train_command_tokens batch_train_example
           "b1" "job1" "proj" "ds.tbl" eq_refl eq_refl eq_refl eq_refl).
Defined.

(** C10. In the batch_train command the token at index 17 is the separator
    [--] and the module arguments after it are [--bucket=b], [--project=p]
    and [--dataset_table=d]: the bucket is forwarded to the module, and it
    is also the staging bucket [gs://b] after [--staging-bucket]. *)
Theorem batch_train_forwards_bucket (args : gmap string pyval)
    (bucket name project dataset_table : string) :
  args !! "bucket" = Some (PyStr bucket) ->
  args !! "name" = Some (PyStr name) ->
  args !! "project" = Some (PyStr project) ->
  args !! "dataset_table" = Some (PyStr dataset_table) ->
  exists cmd,
    deploy_batch_trainer_command args = Ret cmd
    /\ cmd !! 17%nat = Some (PyStr "--")
    /\ drop 18 cmd = [PyStr ("--bucket=" +:+ bucket);
                      PyStr ("--project=" +:+ project);
                      PyStr ("--dataset_table=" +:+ dataset_table)]
    /\ cmd !! 11%nat = Some (PyStr "--staging-bucket")
    /\ cmd !! 12%nat = Some (PyStr ("gs://" +:+ bucket)).
Proof.
  intros Hb Hn Hp Hd. eexists. split.
  { unfold deploy_batch_trainer_command. read_attributes. reflexivity. }
  repeat split.
Qed.

Lemma batch_train_forwards_bucket_witness :
  exists cmd,
    deploy_batch_trainer_command batch_train_example = Ret cmd
    /\ cmd !! 17%nat = Some (PyStr "--")
    /\ drop 18 cmd = [PyStr "--bucket=b1"; PyStr "--project=proj";
                      PyStr "--dataset_table=ds.tbl"]
    /\ cmd !! 11%nat = Some (PyStr "--staging-bucket")
    /\ cmd !! 12%nat = Some (PyStr "gs://b1").
Proof.
  apply (batch_train_forwards_bucket batch_train_example
           "b1" "job1" "proj" "ds.tbl" eq_refl eq_refl eq_refl eq_refl).
Defined.

Ltac split_actions H :=
  unfold actions in H; rewrite !elem_of_cons, elem_of_nil in H;
  destruct H as [H | [H | [H | [H | [H | []]]]]]; simplify_eq.

Lemma train_in_actions os_run :
  ("train", (deploy_trainer os_run, deploy_trainer_command)) ∈ actions os_run.
Proof. unfold actions. apply list_elem_of_further, list_elem_of_here. Defined.


(** ** The exit status of the child *)

Lemma main_parsed os_run argv args w :
  parse argv = Ret args ->
  main os_run argv w = dispatch os_run args w.
Proof.
  intros Hp. unfold main, lift, mbind, io_bind. rewrite Hp. reflexivity.
Qed.

Lemma main_parse_raises os_run argv e w :
  parse argv = Raise e ->
  main os_run argv w = (Raise e, w).
Proof.
  intros Hp. unfold main, lift, mbind, io_bind. rewrite Hp. reflexivity.
Qed.

(** C4. When the child started for the selected action exits with status
    0 the [deploy_*] function returns; when it exits with another status
    the function raises [CalledProcessError].  [main] does the same,
    nothing catches the exception, and the exit status of the program is
    0 exactly when the status of the child is. *)
Theorem dispatch_raises_iff_nonzero (os_run : list string -> option Z)
    (argv : list string) (args : gmap string pyval) (name : string)
    deploy build (cmd : list pyval) (strs : list string) (status : Z) (w : world) :
  parse argv = Ret args ->
  args !! "action" = Some (PyStr name) ->
  (name, (deploy, build)) ∈ actions os_run ->
  build args = Ret cmd ->
  command_strings cmd = Some strs ->
  os_run strs = Some status ->
  deploy args w
  = (if status =? 0 then Ret () else Raise (CalledProcessError status cmd),
     w ++ [strs])
  /\ main os_run argv w = deploy args w
  /\ (fst (main os_run argv w) = Ret () <-> status = 0)
  /\ (exit_status (fst (main os_run argv w)) = 0 <-> status = 0).
Proof.
  intros Hp Ha Hin Hb Hs Ho.
  assert (deploy args w
          = (if status =? 0 then Ret () else Raise (CalledProcessError status cmd),
             w ++ [strs])) as Hd.
  { rewrite (actions_run_checked os_run name deploy build Hin), Hb.
    by apply run_checked_status. }
  assert (main os_run argv w = deploy args w) as Hm.
  { rewrite (main_parsed os_run argv args w Hp).
    by apply (dispatch_action os_run args name deploy build). }
  split; [exact Hd |]. split; [exact Hm |].
  rewrite Hm, Hd. simpl.
  destruct (Z.eqb_spec status 0) as [-> | Hne]; simpl.
  - split; done.
  - split; split; intros; congruence.
Qed.

Lemma dispatch_raises_iff_nonzero_witness :
  let os_run := fun _ : list string => Some 3 in
  let argv := ["train"; "--bucket"; "b1"; "--path"; "p1"; "--name"; "job1"] in
  exists cmd strs,
    deploy_trainer os_run train_example []
    = (if 3 =? 0 then Ret () else Raise (CalledProcessError 3 cmd), [] ++ [strs])
    /\ main os_run argv [] = deploy_trainer os_run train_example []
    /\ (fst (main os_run argv []) = Ret () <-> 3 = 0)
    /\ (exit_status (fst (main os_run argv [])) = 0 <-> 3 = 0).
Proof.
  intros os_run argv. eexists. eexists.
  apply (dispatch_raises_iff_nonzero os_run argv train_example "train"
           _ _ _ _ 3 [] parse_train_example eq_refl (train_in_actions _)).
  - reflexivity.
  - reflexivity.
  - reflexivity.
Defined.

(** ** Construction is a function of the option values *)

Ltac agree_on H o :=
  let E := fresh "E" in
  pose proof (H o true ltac:(set_solver)) as E;
  change (Argparse.dest_of o)
    with (ltac:(let d := eval vm_compute in (Argparse.dest_of o) in exact d)) in E.

(** C8. The command of an action is a function of the values of the
    options of that action alone: two namespaces that agree on them give
    the same command, and the commands handed to the operating system
    are the same whatever the oracle for the child and whatever was
    started before. *)
Theorem command_construction_pure (name : string) (p : Argparse.arguments)
    (os1 os2 : list string -> option Z) deploy1 deploy2 build1 build2
    (args1 args2 : gmap string pyval) (w1 w2 : world) :
  Argparse.lookup_parser name sub_parsers = Some p ->
  (name, (deploy1, build1)) ∈ actions os1 ->
  (name, (deploy2, build2)) ∈ actions os2 ->
  (forall o r, (o, r) ∈ p -> args1 !! Argparse.dest_of o = args2 !! Argparse.dest_of o) ->
  build1 args1 = build2 args2
  /\ exists cmds,
      launched_by (deploy1 args1) w1 cmds /\ launched_by (deploy2 args2) w2 cmds.
Proof.
  intros Hp H1 H2 Hagree.
  assert (build1 args1 = build2 args2) as Hb.
  { split_actions H1; split_actions H2; vm_compute in Hp; simplify_eq.
    - reflexivity.
    - agree_on Hagree "--bucket". agree_on Hagree "--path".
      agree_on Hagree "--name".
      unfold deploy_trainer_command, getattr. by rewrite E, E0, E1.
    - agree_on Hagree "--project". agree_on Hagree "--dataset_table".
      unfold deploy_local_batch_train_command, getattr. by rewrite E, E0.
    - agree_on Hagree "--bucket". agree_on Hagree "--name".
      agree_on Hagree "--project". agree_on Hagree "--dataset_table".
      unfold deploy_batch_trainer_command, getattr. by rewrite E, E0, E1, E2.
    - agree_on Hagree "--version". agree_on Hagree "--model".
      agree_on Hagree "--origin". agree_on Hagree "--package-path".
      unfold deploy_predictor_command, getattr. by rewrite E, E0, E1, E2. }
  split; [exact Hb |].
  rewrite (actions_run_checked os1 name deploy1 build1 H1).
  rewrite (actions_run_checked os2 name deploy2 build2 H2).
  rewrite <- Hb.
  eexists. split; apply run_checked_launched.
Qed.

Lemma command_construction_pure_witness :
  let args2 := <["project" := PyStr "unused"]> train_example in
  deploy_trainer_command train_example = deploy_trainer_command args2
  /\ exists cmds,
      launched_by (deploy_trainer (fun _ => Some 0) train_example) [] cmds
      /\ launched_by (deploy_trainer (fun _ => None) args2)
           [["powershell.exe"; "gcloud"; "--version"]] cmds.
Proof.
  intros args2.
  apply (command_construction_pure "train" train_parser
           (fun _ => Some 0) (fun _ => None) _ _ _ _
           train_example args2 [] [["powershell.exe"; "gcloud"; "--version"]]
           eq_refl (train_in_actions _) (train_in_actions _)).
  intros o r Hin. unfold train_parser in Hin.
  rewrite !elem_of_cons, elem_of_nil in Hin.
  destruct Hin as [Hin | [Hin | [Hin | []]]]; simplify_eq; reflexivity.
Defined.


(** ** Strings *)

#[local] Arguments Ascii.eqb : simpl never.
#[local] Arguments String.eqb : simpl never.

Lemma startswith_refl s : Str.startswith s s = true.
Proof. induction s as [| c s IH]; simpl; [done |]. by rewrite Ascii.eqb_refl. Qed.

Lemma startswith_trans s a b :
  Str.startswith s a = true -> Str.startswith a b = true -> Str.startswith s b = true.
Proof.
  revert s a. induction b as [| c b IH]; intros s a Hsa Hab; [by destruct s |].
  destruct a as [| c' a]; [done |]. simpl in Hab.
  destruct (Ascii.eqb_spec c c') as [<- |]; [| done].
  destruct s as [| d s]; [done |]. simpl in Hsa |- *.
  destruct (Ascii.eqb c d); [| done]. by apply (IH s a).
Qed.

Lemma split1_startswith c s a b :
  Str.split1 c s = Some (a, b) -> Str.startswith s a = true.
Proof.
  revert a. induction s as [| d s IH]; intros a H; simpl in H; [done |].
  destruct (Ascii.eqb c d); [by simplify_eq |].
  destruct (Str.split1 c s) as [[a' b'] |]; [| done]. simplify_eq. simpl.
  rewrite Ascii.eqb_refl. by apply IH.
Qed.

Lemma split1_not_contains c s :
  Str.contains c s = false -> Str.split1 c s = None.
Proof.
  induction s as [| d s IH]; simpl; [done |].
  destruct (Ascii.eqb c d); [done |]. intros H. by rewrite IH.
Qed.


Lemma not_startswith_dash s :
  Str.startswith s "-" = false ->
  String.eqb s "--" = false /\ forall m, Argparse.parse_optional m s = Ret None.
Proof.
  destruct s as [| c s]; simpl; [done |].
  destruct (Ascii.eqb_spec "-"%char c) as [<- | Hne]; [done |]. intros _.
  split.
  - apply String.eqb_neq. intros [= ? _]. congruence.
  - intros m. unfold Argparse.parse_optional.
    destruct (Ascii.eqb_spec c "-"%char); [congruence | done].
Qed.

(** ** The classification of the argument strings *)

Lemma classify_fst m l toks :
  Argparse.classify m l = Ret toks -> map fst toks = l.
Proof.
  revert toks. induction l as [| s l IH]; intros toks H; simpl in H.
  - by simplify_eq.
  - destruct (String.eqb s "--").
    + simplify_eq. simpl. f_equal. rewrite map_map. simpl. apply map_id.
    + unfold mbind, res_bind in H.
      destruct (Argparse.parse_optional m s) as [t |]; [| done].
      destruct (Argparse.classify m l) as [cs |]; [| done].
      simplify_eq. simpl. f_equal. by apply IH.
Qed.

Lemma parse_optional_raises m s e :
  Argparse.parse_optional m s = Raise e -> exists u, e = UsageExit u.
Proof.
  unfold Argparse.parse_optional. intros H.
  repeat case_match; simplify_eq; eauto.
Qed.

Lemma classify_raises m l e :
  Argparse.classify m l = Raise e -> exists u, e = UsageExit u.
Proof.
  induction l as [| s l IH]; simpl; [done |].
  destruct (String.eqb s "--"); [done |].
  unfold mbind, res_bind.
  destruct (Argparse.parse_optional m s) as [t |] eqn:Ht.
  - destruct (Argparse.classify m l) as [cs |]; [done |].
    intros H. simplify_eq. by apply IH.
  - intros H. simplify_eq. by apply (parse_optional_raises m s).
Qed.

Lemma classify_option m l toks tok t :
  Argparse.classify m l = Ret toks ->
  (tok, Argparse.ClsO t) ∈ toks ->
  tok ∈ l /\ tok <> "--" /\ Argparse.parse_optional m tok = Ret (Some t).
Proof.
  revert toks. induction l as [| s l IH]; intros toks H Hin; simpl in H.
  - simplify_eq. by apply elem_of_nil in Hin.
  - destruct (String.eqb_spec s "--") as [-> | Hne].
    + simplify_eq. apply elem_of_cons in Hin as [Hin | Hin]; [done |].
      apply list_elem_of_fmap in Hin as (x & Hx & _). done.
    + unfold mbind, res_bind in H.
      destruct (Argparse.parse_optional m s) as [t' |] eqn:Ht; [| done].
      destruct (Argparse.classify m l) as [cs |]; [| done].
      simplify_eq. apply elem_of_cons in Hin as [Hin | Hin].
      * destruct t' as [t' |]; simplify_eq.
        split; [apply list_elem_of_here | done].
      * destruct (IH cs eq_refl Hin) as (? & ? & ?).
        split; [by apply list_elem_of_further | done].
Qed.

(** ** The top-level parser *)

(** Comparisons of two character literals are evaluated. *)
Ltac eqb_lit :=
  repeat match goal with
         | |- context [Ascii.eqb ?a ?b] =>
             lazymatch a with Ascii _ _ _ _ _ _ _ _ => idtac end;
             lazymatch b with Ascii _ _ _ _ _ _ _ _ => idtac end;
             let v := eval vm_compute in (Ascii.eqb a b) in
             change (Ascii.eqb a b) with v
         end.

Lemma string_eqb_cons a s b t :
  String.eqb (String a s) (String b t) = Ascii.eqb a b && String.eqb s t.
Proof. unfold String.eqb at 1. fold String.eqb. by destruct (Ascii.eqb a b). Qed.

(** The top-level parser knows [-h] and [--help] only, and no string of
    two characters or more abbreviates both: its classification of the
    argument strings never fails. *)
Lemma top_tuples s c2 :
  (length (Argparse.get_option_tuples (Argparse.option_map_of [])
             (String "-" (String c2 s))) <= 1)%nat.
Proof.
  unfold Argparse.get_option_tuples, Argparse.second_is_dash, Argparse.option_map_of.
  destruct (Ascii.eqb_spec c2 "-"%char) as [-> | Hc2].
  - simpl Str.split1. eqb_lit. cbv iota.
    destruct (Str.split1 "=" s) as [[a b] |]; simpl; eqb_lit; cbv iota.
    all: repeat case_match; simpl; lia.
  - simpl. rewrite !string_eqb_cons. eqb_lit. simpl.
    destruct (Ascii.eqb_spec "-"%char c2) as [<- |]; [done |].
    destruct (Ascii.eqb_spec c2 "-"%char); [done |]. simpl.
    repeat case_match; simpl; lia.
Qed.

Lemma top_parse_optional_total s :
  exists r, Argparse.parse_optional (Argparse.option_map_of []) s = Ret r.
Proof.
  unfold Argparse.parse_optional.
  destruct s as [| c s]; [eauto |].
  destruct (Ascii.eqb_spec c "-"%char) as [-> |]; [| simpl; eauto].
  cbv beta iota zeta. change (negb true) with false. cbv iota.
  destruct (Argparse.lookup_option _ _); [eauto |].
  destruct s as [| c2 s]; [simpl; eauto |].
  pose proof (top_tuples s c2) as Hlen.
  destruct (Argparse.get_option_tuples _ _) as [| t [| t' ts]];
    [| | simpl in Hlen; lia]; repeat case_match; eauto.
Qed.


Lemma top_classify_total l :
  exists toks, Argparse.classify (Argparse.option_map_of []) l = Ret toks.
Proof.
  induction l as [| s l [cs IH]]; simpl; [eauto |].
  destruct (String.eqb s "--"); [eauto |].
  destruct (top_parse_optional_total s) as [r Hr].
  unfold mbind, res_bind. rewrite Hr, IH. eauto.
Qed.

(** When the first argument string does not look like an option, the
    sub-parser action takes the whole command line. *)
Lemma parse_first_positional a rest :
  Str.startswith a "-" = false ->
  parse (a :: rest)
  = '(namespace, unrec) ←
      Argparse.subparsers_action "action" sub_parsers a rest {[ "action" := PyNone ]};
    match unrec with
    | [] => Ret namespace
    | _ => Raise (UsageExit (UnrecognizedArguments unrec))
    end.
Proof.
  intros Ha. destruct (not_startswith_dash a Ha) as [Hsep Hopt].
  destruct (top_classify_total rest) as [cs Hcs].
  unfold parse, Argparse.parse_args, Argparse.parse_known_args.
  simpl Argparse.classify. rewrite Hsep, Hopt.
  unfold mbind, res_bind. rewrite Hcs.
  cbn [Argparse.consume Argparse.parser_nargs_matches Argparse.ns Argparse.seen
       Argparse.extras Argparse.unrecognized map fst].
  rewrite (classify_fst _ _ _ Hcs).
  destruct (Argparse.subparsers_action _ _ _ _ _) as [[namespace unrec] |];
    [| reflexivity].
  reflexivity.
Qed.

(** ** The options of a sub-parser *)

Lemma lookup_option_elem m s a :
  Argparse.lookup_option m s = Some a -> (s, a) ∈ m.
Proof.
  induction m as [| [o a'] m IH]; simpl; [done |].
  destruct (String.eqb_spec o s) as [-> |].
  - intros [= ->]. apply list_elem_of_here.
  - intros H. by apply list_elem_of_further, IH.
Qed.

Lemma option_map_of_elem p o a :
  (o, a) ∈ Argparse.option_map_of p ->
  (a = Argparse.Help /\ (o = "-h" \/ o = "--help"))
  \/ exists r, a = Argparse.Store o r /\ (o, r) ∈ p.
Proof.
  unfold Argparse.option_map_of. rewrite !elem_of_cons.
  intros [H | [H | H]]; [simplify_eq; auto .. |].
  apply list_elem_of_fmap in H as ([o' r] & H & Hin). simplify_eq. eauto.
Qed.

(** How an argument string comes to be an option of the parser: it is
    the option string, it is the option string followed by [=] and a
    value, or it is an abbreviation. *)
Lemma parse_optional_inv m s a o e :
  Argparse.parse_optional m s = Ret (Some (Some a, o, e)) ->
  (exists c t, s = String "-" (String c t)
    /\ ((Argparse.lookup_option m s = Some a /\ o = s /\ e = None)
        \/ (exists e', Str.split1 "=" s = Some (o, e')
                       /\ Argparse.lookup_option m o = Some a /\ e = Some e')
        \/ (Some a, o, e) ∈ Argparse.get_option_tuples m s))
  \/ (s = "-" /\ Argparse.lookup_option m s = Some a /\ o = s /\ e = None).
Proof.
  unfold Argparse.parse_optional.
  destruct s as [| c1 s]; [done |].
  destruct (Ascii.eqb_spec c1 "-"%char) as [-> |]; [| done].
  change (negb true) with false. cbv iota.
  destruct (Argparse.lookup_option m (String "-" s)) as [a' |] eqn:Hl.
  { intros [= -> <- <-]. destruct s as [| c t]; [right; done |].
    left. exists c, t. split; [done |]. left. done. }
  destruct s as [| c t]; [done |].
  change (String.length (String "-" (String c t)) =? 1)%nat with false.
  cbv iota. intros H. left. exists c, t. split; [done |].
  destruct (Str.split1 "=" (String "-" (String c t))) as [[o' e'] |] eqn:Hs.
  - destruct (Argparse.lookup_option m o') as [a' |] eqn:Hl'.
    + simplify_eq. right; left. eauto.
    + right; right.
      destruct (Argparse.get_option_tuples m _) as [| t1 [| t2 ts]];
        repeat case_match; simplify_eq. apply list_elem_of_here.
  - right; right.
    destruct (Argparse.get_option_tuples m _) as [| t1 [| t2 ts]];
      repeat case_match; simplify_eq. apply list_elem_of_here.
Qed.

Lemma get_option_tuples_inv m s a o e :
  (Some a, o, e) ∈ Argparse.get_option_tuples m s ->
  (o, a) ∈ m
  /\ ((Argparse.second_is_dash s = true
       /\ Str.startswith o (option_head s) = true
       /\ (e = None -> Str.split1 "=" s = None))
      \/ (Argparse.second_is_dash s = false
          /\ (o = String.substring 0 2 s \/ Str.startswith o s = true))).
Proof.
  unfold Argparse.get_option_tuples, option_head.
  destruct (Argparse.second_is_dash s).
  - destruct (Str.split1 "=" s) as [[x y] |];
      intros H; apply list_elem_of_omap in H as ([o' a'] & Hin & Hf);
      destruct (Str.startswith o' _) eqn:Hsw; simplify_eq;
      (split; [done |]); left; done.
  - intros H. apply list_elem_of_omap in H as ([o' a'] & Hin & Hf).
    destruct (String.eqb_spec o' (substring 0 2 s)).
    + simplify_eq. split; [done |]. right. auto.
    + destruct (Str.startswith o' s) eqn:Hsw; simplify_eq.
      split; [done |]. right. auto.
Qed.

Lemma required_long_options_elem p o r :
  required_long_options p = true ->
  (o, r) ∈ p ->
  Str.startswith o "--" = true /\ Str.contains "=" o = false /\ r = true.
Proof.
  unfold required_long_options. rewrite forallb_forall.
  intros H Hin. apply list_elem_of_In in Hin. apply H in Hin.
  apply andb_prop in Hin as [Hin ->]. apply andb_prop in Hin as [Hin Hc].
  apply andb_prop in Hin as [-> _].
  by apply negb_true_iff in Hc.
Qed.

Lemma required_long_options_sep p o r :
  required_long_options p = true -> (o, r) ∈ p -> o <> "--".
Proof.
  unfold required_long_options. rewrite forallb_forall.
  intros H Hin. apply list_elem_of_In in Hin. apply H in Hin.
  apply andb_prop in Hin as [Hin _]. apply andb_prop in Hin as [Hin _].
  apply andb_prop in Hin as [_ Hne].
  apply negb_true_iff in Hne. by apply String.eqb_neq in Hne.
Qed.

Lemma startswith_dashdash_inv o :
  Str.startswith o "--" = true -> exists t, o = String "-" (String "-" t).
Proof.
  destruct o as [| c1 [| c2 t]]; simpl; [done | |].
  - by destruct (Ascii.eqb "-" c1).
  - destruct (Ascii.eqb_spec "-"%char c1) as [<- |]; [| done].
    destruct (Ascii.eqb_spec "-"%char c2) as [<- |]; [eauto | done].
Qed.

(** An argument string that the parser takes for a store option names
    that option. *)
Lemma names_store p tok x r o e :
  required_long_options p = true ->
  Argparse.parse_optional (Argparse.option_map_of p) tok
  = Ret (Some (Some (Argparse.Store x r), o, e)) ->
  tok <> "--" ->
  o = x /\ (o, r) ∈ p /\ names_option o tok = true.
Proof.
  intros Hwf Hp Hsep.
  assert (forall k, (k, Argparse.Store x r) ∈ Argparse.option_map_of p ->
                    k = x /\ (k, r) ∈ p
                    /\ (exists t, k = String "-" (String "-" t))
                    /\ Str.split1 "=" k = None) as Hstore.
  { intros k Hk. apply option_map_of_elem in Hk as [[? _] | (r' & Heq & Hin)]; [done |].
    injection Heq as <- <-.
    destruct (required_long_options_elem p x r Hwf Hin) as (Hd & Hc & _).
    repeat split; [done | by apply startswith_dashdash_inv
                  | by apply split1_not_contains]. }
  unfold names_option.
  apply parse_optional_inv in Hp
    as [(c & t & -> & [(Hl & -> & ->) | [(e' & Hs & Hl & ->) | Hin]]) | (-> & Hl & _)].
  - apply lookup_option_elem, Hstore in Hl as (<- & Hin & (t' & Heq) & Hno).
    split; [done |]. split; [done |].
    unfold option_head. rewrite Hno, startswith_refl.
    apply String.eqb_neq in Hsep. rewrite Hsep.
    injection Heq as -> ->. simpl. eqb_lit. done.
  - apply lookup_option_elem, Hstore in Hl as (<- & Hin & (t' & ->) & Hno).
    split; [done |]. split; [done |].
    unfold option_head. rewrite Hs, startswith_refl.
    apply String.eqb_neq in Hsep. rewrite Hsep.
    apply split1_startswith in Hs.
    rewrite (startswith_trans _ _ "--" Hs); done.
  - apply get_option_tuples_inv in Hin as [Hin Hcase].
    apply Hstore in Hin as (<- & Hin & (t' & ->) & Hno).
    split; [done |]. split; [done |].
    destruct Hcase as [(Hd & Hsw & _) | (Hd & Hcase)].
    + simpl in Hd. apply Ascii.eqb_eq in Hd as ->.
      rewrite Hsw. apply String.eqb_neq in Hsep. rewrite Hsep.
      simpl. eqb_lit. done.
    + simpl in Hd. exfalso.
      destruct Hcase as [Hsub | Hsw].
      * simpl in Hsub. injection Hsub as <-. by rewrite Ascii.eqb_refl in Hd.
      * simpl in Hsw. revert Hsw. eqb_lit. by rewrite Hd.
  - apply lookup_option_elem, Hstore in Hl as (_ & _ & (t' & Heq) & _). done.
Qed.

(** ** The loop of a sub-parser *)

Lemma shorter_list_ind {A} (P : list A -> Prop) :
  (forall l, (forall l', (length l' < length l)%nat -> P l') -> P l) ->
  forall l, P l.
Proof.
  intros Hstep l. remember (length l) as n eqn:Hn. revert l Hn.
  induction n as [n IH] using lt_wf_ind. intros l ->.
  apply Hstep. intros l' Hlt. by apply (IH (length l')).
Qed.

Lemma split_flags_ret m o x r :
  Argparse.split_flags m o x = Ret r -> Argparse.second_is_dash o = false.
Proof.
  destruct x as [| c x]; simpl; [done |].
  by destruct (Argparse.second_is_dash o).
Qed.

Lemma split_flags_raises m o x e :
  Argparse.split_flags m o x = Raise e -> exists u, e = UsageExit u.
Proof.
  revert o. induction x as [| c x IH]; intros o; simpl.
  - intros [= <-]. eauto.
  - destruct (Argparse.second_is_dash o); [intros [= <-]; eauto |].
    destruct (Argparse.lookup_option m _) as [[| a r] |].
    + destruct x; [done | apply IH].
    + by destruct x.
    + intros [= <-]. eauto.
Qed.

(** A store action is seen only where an argument string was classified
    as its option. *)
Lemma consume_seen m toks :
  forall st st' x,
    Argparse.consume m None toks st = Ret st' ->
    x ∈ Argparse.seen st' ->
    x ∈ Argparse.seen st
    \/ exists tok a r e,
        (tok, Argparse.ClsO (Some (Argparse.Store a r), x, e)) ∈ toks.
Proof.
  induction toks as [toks IH] using shorter_list_ind.
  intros st st' x Hc Hx.
  destruct toks as [| [s c] rest]; [simpl in Hc; simplify_eq; auto |].
  assert (forall st0,
             Argparse.consume m None rest st0 = Ret st' ->
             Argparse.seen st0 = Argparse.seen st ->
             x ∈ Argparse.seen st
             \/ exists tok a r e,
                 (tok, Argparse.ClsO (Some (Argparse.Store a r), x, e))
                 ∈ (s, c) :: rest) as Hskip.
  { intros st0 Hc0 Hs0.
    destruct (IH rest ltac:(simpl; lia) st0 st' x Hc0 Hx)
      as [Hin | (tok & a & r & e & Hin)].
    - left. by rewrite <- Hs0.
    - right. exists tok, a, r, e. by apply list_elem_of_further. }
  destruct c as [| | [[[[| a r] |] o] [e |]]]; simpl in Hc;
    try (by apply (Hskip _ Hc)); try done.
  - unfold mbind, res_bind in Hc.
    destruct (Argparse.split_flags m o e) as [[o' |] |]; [| done | done].
    by destruct rest as [| [v [| |]] rest'].
  - destruct (IH rest ltac:(simpl; lia) _ st' x Hc Hx)
      as [Hin | (tok & a' & r' & e' & Hin)].
    + simpl in Hin. apply elem_of_cons in Hin as [-> | Hin]; [| by left].
      right. exists s, a, r, (Some e). apply list_elem_of_here.
    + right. exists tok, a', r', e'. by apply list_elem_of_further.
  - destruct rest as [| [v [| |]] rest']; try done.
    destruct (IH rest' ltac:(simpl; lia) _ st' x Hc Hx)
      as [Hin | (tok & a' & r' & e' & Hin)].
    + simpl in Hin. apply elem_of_cons in Hin as [-> | Hin]; [| by left].
      right. exists s, a, r, None. apply list_elem_of_here.
    + right. exists tok, a', r', e'. by do 2 apply list_elem_of_further.
Qed.

Lemma sub_parsers_inv name p :
  Argparse.lookup_parser name sub_parsers = Some p ->
  Str.startswith name "-" = false /\ required_long_options p = true.
Proof.
  unfold sub_parsers. intros H. simpl in H.
  repeat match type of H with
         | context [String.eqb ?a name] =>
             destruct (String.eqb_spec a name) as [<- |];
             [injection H as <-; vm_compute; by split |]
         end.
  done.
Qed.

(** ** Asking for help *)

Lemma split1_eq c s a b :
  Str.split1 c s = Some (a, b) -> s = a +:+ String c b.
Proof.
  revert a. induction s as [| d s IH]; intros a H; simpl in H; [done |].
  destruct (Ascii.eqb_spec c d) as [-> |]; [by simplify_eq |].
  destruct (Str.split1 c s) as [[a' b'] |]; [| done]. simplify_eq.
  change (String d a' +:+ String c b) with (String d (a' +:+ String c b)).
  f_equal. by apply IH.
Qed.

Lemma substring_0_length s : String.substring 0 (String.length s) s = s.
Proof. induction s as [| c s IH]; simpl; [done | by f_equal]. Qed.

Lemma help_options p k :
  (k, Argparse.Help) ∈ Argparse.option_map_of p -> k = "-h" \/ k = "--help".
Proof.
  intros Hk. apply option_map_of_elem in Hk as [[_ ?] | (r' & Heq & Hin)]; done.
Qed.

(** The only option of one letter is [-h]. *)
Lemma short_option p c a :
  required_long_options p = true ->
  Argparse.lookup_option (Argparse.option_map_of p) (String "-" (String c EmptyString))
  = Some a ->
  c = "h"%char /\ a = Argparse.Help.
Proof.
  intros Hwf Hl.
  apply lookup_option_elem, option_map_of_elem in Hl
    as [[-> [H | H]] | (r & -> & Hin)].
  - by injection H as ->.
  - done.
  - exfalso. destruct (required_long_options_elem p _ r Hwf Hin) as (Hd & _ & _).
    apply startswith_dashdash_inv in Hd as [t Ht]. injection Ht as -> <-.
    by apply (required_long_options_sep p "--" r Hwf Hin).
Qed.

(** The flags that follow [-h] in one string are read to the end only
    when each of them is [h] again. *)
Lemma split_flags_help p o x r :
  required_long_options p = true ->
  String.substring 0 1 o = "-" ->
  Argparse.split_flags (Argparse.option_map_of p) o x = Ret r ->
  Str.nonempty x = true /\ all_h x = true.
Proof.
  intros Hwf. revert o.
  induction x as [| c x IH]; intros o Ho H; [done |].
  cbn [Argparse.split_flags] in H.
  destruct (Argparse.second_is_dash o); [done |].
  rewrite Ho in H.
  change ("-" +:+ String c EmptyString) with (String "-" (String c EmptyString)) in H.
  destruct (Argparse.lookup_option _ _) as [a |] eqn:Hl; [| done].
  destruct (short_option p c a Hwf Hl) as [-> ->].
  split; [done |]. cbn [all_h]. rewrite Ascii.eqb_refl.
  destruct x as [| c' x']; [done |].
  by apply (IH "-h").
Qed.

Lemma get_option_tuples_short m s a o e :
  Argparse.second_is_dash s = false ->
  (Some a, o, e) ∈ Argparse.get_option_tuples m s ->
  (o = String.substring 0 2 s
   /\ e = Some (String.substring 2 (String.length s - 2) s))
  \/ (Str.startswith o s = true /\ e = None).
Proof.
  unfold Argparse.get_option_tuples. intros ->.
  intros H. apply list_elem_of_omap in H as ([o' a'] & Hin & Hf).
  destruct (String.eqb_spec o' (substring 0 2 s)).
  - simplify_eq. left. auto.
  - destruct (Str.startswith o' s) eqn:Hsw; simplify_eq. right. auto.
Qed.

(** The strings of which [--help] is an extension, the separator
    apart. *)
Lemma help_abbreviation t :
  Str.startswith "--help" (String "-" (String "-" t)) = true ->
  t <> EmptyString ->
  asks_help (String "-" (String "-" t)) = true.
Proof.
  intros H Hne. simpl in H. revert H. eqb_lit. cbv iota.
  destruct t as [| c1 t]; [done |]. simpl.
  destruct (Ascii.eqb_spec c1 "h"%char) as [-> |]; [| done].
  destruct t as [| c2 t]; [done |]. simpl.
  destruct (Ascii.eqb_spec c2 "e"%char) as [-> |]; [| done].
  destruct t as [| c3 t]; [done |]. simpl.
  destruct (Ascii.eqb_spec c3 "l"%char) as [-> |]; [| done].
  destruct t as [| c4 t]; [done |]. simpl.
  destruct (Ascii.eqb_spec c4 "p"%char) as [-> |]; [| done].
  destruct t as [| c5 t]; [done |]. done.
Qed.

(** When the help action is taken for an argument string, that string
    asks for help. *)
Lemma asks_help_of p tok o e :
  required_long_options p = true ->
  Argparse.parse_optional (Argparse.option_map_of p) tok
  = Ret (Some (Some Argparse.Help, o, e)) ->
  tok <> "--" ->
  e = None
  \/ (exists x r, e = Some x
                  /\ Argparse.split_flags (Argparse.option_map_of p) o x = Ret r) ->
  asks_help tok = true.
Proof.
  intros Hwf Hp Hsep He.
  assert (forall x r,
             Argparse.split_flags (Argparse.option_map_of p) o x = Ret r ->
             (o, Argparse.Help) ∈ Argparse.option_map_of p ->
             o = "-h" /\ Str.nonempty x = true /\ all_h x = true) as Hflags.
  { intros x r Hf Hin. apply help_options in Hin as [-> | ->].
    - split; [done |]. by apply (split_flags_help p "-h" x r).
    - by apply split_flags_ret in Hf. }
  apply parse_optional_inv in Hp
    as [(c & t & -> & [(Hl & -> & ->) | [(e' & Hs & Hl & ->) | Hin]]) | (-> & Hl & _)].
  - apply lookup_option_elem, help_options in Hl as [Hl | Hl]; by rewrite Hl.
  - destruct He as [| (x & r & [= <-] & Hf)]; [done |].
    apply lookup_option_elem in Hl.
    destruct (Hflags e' r Hf Hl) as (-> & Hne & Hall).
    apply split1_eq in Hs. rewrite Hs.
    change ("-h" +:+ String "=" e') with (String "-" (String "h" (String "=" e'))).
    unfold asks_help. apply orb_true_iff. right.
    rewrite !Ascii.eqb_refl, Hne, Hall. by rewrite orb_true_r.
  - destruct (Argparse.second_is_dash (String "-" (String c t))) eqn:Hd.
    + apply get_option_tuples_inv in Hin as [Hin Hcase].
      destruct Hcase as [(_ & Hsw & Hnone) | (Hd' & _)]; [| congruence].
      simpl in Hd. apply Ascii.eqb_eq in Hd as ->.
      assert (o = "--help") as ->.
      { apply help_options in Hin as [-> | ->]; [| done].
        exfalso. revert Hsw. unfold option_head. simpl Str.split1. eqb_lit.
        cbv iota. destruct (Str.split1 "=" t) as [[a b] |]; simpl; by eqb_lit. }
      destruct He as [-> | (x & r & -> & Hf)].
      * unfold option_head in Hsw. rewrite (Hnone eq_refl) in Hsw.
        apply help_abbreviation; [done |]. by intros ->.
      * by apply split_flags_ret in Hf.
    + pose proof Hin as Hin'.
      apply get_option_tuples_inv in Hin' as [Hin' _].
      apply get_option_tuples_short in Hin as [[-> ->] | [Hsw ->]]; [| | done].
      * destruct He as [| (x & r & [= <-] & Hf)]; [done |].
        destruct (Hflags _ r Hf Hin') as (Ho & _ & Hall).
        simpl in Ho. injection Ho as ->.
        simpl in Hall. rewrite Nat.sub_0_r, substring_0_length in Hall.
        unfold asks_help. apply orb_true_iff. right.
        rewrite !Ascii.eqb_refl, Hall. done.
      * simpl in Hd.
        apply help_options in Hin' as [-> | ->]; simpl in Hsw; revert Hsw; eqb_lit.
        -- destruct (Ascii.eqb_spec c "h"%char) as [-> |]; [| done].
           by destruct t.
        -- by rewrite Hd.
  - apply lookup_option_elem, help_options in Hl as [Hl | Hl]; done.
Qed.

(** A sub-parser ends the process with a usage error or, where the help
    action was taken for an argument string, with the help text. *)
Lemma consume_raises m toks :
  forall st e,
    Argparse.consume m None toks st = Raise e ->
    (exists u, e = UsageExit u)
    \/ (e = HelpExit
        /\ exists tok o e',
            (tok, Argparse.ClsO (Some Argparse.Help, o, e')) ∈ toks
            /\ (e' = None
                \/ exists x r, e' = Some x /\ Argparse.split_flags m o x = Ret r)).
Proof.
  induction toks as [toks IH] using shorter_list_ind.
  intros st e Hc.
  destruct toks as [| [s c] rest]; [done |].
  assert (forall st0,
             Argparse.consume m None rest st0 = Raise e ->
             (exists u, e = UsageExit u)
             \/ (e = HelpExit
                 /\ exists tok o e',
                     (tok, Argparse.ClsO (Some Argparse.Help, o, e'))
                     ∈ (s, c) :: rest
                     /\ (e' = None
                         \/ exists x r,
                             e' = Some x /\ Argparse.split_flags m o x = Ret r)))
    as Hskip.
  { intros st0 Hc0.
    destruct (IH rest ltac:(simpl; lia) st0 e Hc0)
      as [Hu | (-> & tok & o & e' & Hin & He)]; [by left |].
    right. split; [done |]. exists tok, o, e'. split; [| done].
    by apply list_elem_of_further. }
  destruct c as [| | [[[[| a r] |] o] [x |]]]; simpl in Hc;
    try (by apply (Hskip _ Hc)).
  - unfold mbind, res_bind in Hc.
    destruct (Argparse.split_flags m o x) as [last | e0] eqn:Hf.
    + assert (e = HelpExit -> (exists u, e = UsageExit u)
                \/ (e = HelpExit
                    /\ exists tok o0 e',
                        (tok, Argparse.ClsO (Some Argparse.Help, o0, e'))
                        ∈ (s, Argparse.ClsO (Some Argparse.Help, o, Some x)) :: rest
                        /\ (e' = None
                            \/ exists x0 r,
                                e' = Some x0
                                /\ Argparse.split_flags m o0 x0 = Ret r)))
        as Hhelp.
      { intros ->. right. split; [done |]. exists s, o, (Some x).
        split; [apply list_elem_of_here | right; eauto]. }
      destruct last as [o' |]; [| simplify_eq; by apply Hhelp].
      destruct rest as [| [v [| |]] rest']; simplify_eq;
        first [by apply Hhelp | left; eauto].
    + simplify_eq. left. by apply (split_flags_raises m o x).
  - simplify_eq. right. split; [done |]. exists s, o, None.
    split; [apply list_elem_of_here | by left].
  - destruct rest as [| [v [| |]] rest']; simplify_eq; try (left; eauto; fail).
    destruct (IH rest' ltac:(simpl; lia) _ e Hc)
      as [Hu | (-> & tok & o' & e' & Hin & He)]; [by left |].
    right. split; [done |]. exists tok, o', e'. split; [| done].
    by do 2 apply list_elem_of_further.
Qed.

(** ** A required option that is absent *)

(** A sub-parser whose command line does not name one of its required
    options does not return: it ends in a usage error, or in the help
    text when an argument string asks for help. *)
Lemma sub_parser_requires p o r defaults rest :
  required_long_options p = true ->
  (o, r) ∈ p ->
  (forall tok, tok ∈ rest -> names_option o tok = false) ->
  exists e,
    Argparse.parse_known_args (Argparse.option_map_of p) None defaults rest
    = Raise e
    /\ ((exists u, e = UsageExit u)
        \/ (e = HelpExit /\ exists tok, tok ∈ rest /\ asks_help tok = true)).
Proof.
  intros Hwf Hin Habsent. unfold Argparse.parse_known_args, mbind, res_bind.
  destruct (Argparse.classify _ rest) as [toks | e] eqn:Hcl.
  2:{ exists e. split; [done |]. left. apply (classify_raises _ _ _ Hcl). }
  destruct (Argparse.consume _ None toks _) as [st | e] eqn:Hc.
  2:{ exists e. split; [done |].
      apply consume_raises in Hc as [Hu | (-> & tok & o' & e' & Htok & He)];
        [by left |].
      destruct (classify_option _ _ _ _ _ Hcl Htok) as (Hrest & Hsep & Hp).
      right. split; [done |]. exists tok. split; [done |].
      by apply (asks_help_of p tok o' e'). }
  assert (o ∉ Argparse.seen st) as Hunseen.
  { intros Hseen.
    destruct (consume_seen _ _ _ _ _ Hc Hseen)
      as [Hnil | (tok & a & r' & e & Htok)]; [by apply elem_of_nil in Hnil |].
    destruct (classify_option _ _ _ _ _ Hcl Htok) as (Hrest & Hsep & Hp).
    destruct (names_store p tok a r' o e Hwf Hp Hsep) as (_ & _ & Hnames).
    by rewrite (Habsent tok Hrest) in Hnames. }
  destruct (required_long_options_elem p o r Hwf Hin) as (_ & _ & ->).
  assert (o ∈ Argparse.missing_required (Argparse.option_map_of p) (Argparse.seen st))
    as Hmissing.
  { unfold Argparse.missing_required. apply list_elem_of_omap.
    exists (o, Argparse.Store o true). split.
    - unfold Argparse.option_map_of. do 2 apply list_elem_of_further.
      apply list_elem_of_fmap. by exists (o, true).
    - by rewrite bool_decide_eq_false_2. }
  destruct (Argparse.missing_required _ _) as [| n names];
    [by apply elem_of_nil in Hmissing |].
  eexists. split; [reflexivity |]. left. eauto.
Qed.

(** ** The argument strings before the action *)

Lemma option_like_inv tok :
  option_like tok = true ->
  tok <> "--"
  /\ exists t, Argparse.parse_optional (Argparse.option_map_of []) tok = Ret (Some t).
Proof.
  unfold option_like. intros H. apply andb_prop in H as [Hsep H].
  apply negb_true_iff, String.eqb_neq in Hsep. split; [done |].
  destruct (Argparse.parse_optional _ tok) as [[t |] |]; [eauto | done | done].
Qed.

Lemma not_option_like_inv tok :
  option_like tok = false ->
  tok = "--" \/ Argparse.parse_optional (Argparse.option_map_of []) tok = Ret None.
Proof.
  unfold option_like. intros H.
  destruct (String.eqb_spec tok "--") as [| _]; [by left |]. right.
  destruct (top_parse_optional_total tok) as [[t |] Hr]; rewrite Hr in H |- *; done.
Qed.

(** What the top-level loop does with an argument string that is like an
    option: it takes the help action, which does not return, or it puts
    the string aside, since the parser has no other option. *)
Lemma top_consume_option sub tok rest st :
  option_like tok = true ->
  exists t,
    Argparse.parse_optional (Argparse.option_map_of []) tok = Ret (Some t)
    /\ ((exists e,
            Argparse.consume (Argparse.option_map_of []) (Some sub)
              ((tok, Argparse.ClsO t) :: rest) st = Raise e
            /\ ((exists u, e = UsageExit u)
                \/ (e = HelpExit /\ asks_help tok = true)))
        \/ Argparse.consume (Argparse.option_map_of []) (Some sub)
             ((tok, Argparse.ClsO t) :: rest) st
           = Argparse.consume (Argparse.option_map_of []) (Some sub) rest
               (Argparse.add_extra tok st)).
Proof.
  intros Hopt. apply option_like_inv in Hopt as [Hsep [[[a o] x] Hp]].
  exists (a, o, x). split; [done |].
  destruct a as [[| a r] |].
  - left.
    assert (forall e,
               e = HelpExit ->
               x = None
               \/ (exists y r, x = Some y
                    /\ Argparse.split_flags (Argparse.option_map_of []) o y = Ret r) ->
               (exists u, e = UsageExit u)
               \/ (e = HelpExit /\ asks_help tok = true)) as Hhelp.
    { intros e -> Hx. right. split; [done |].
      by apply (asks_help_of [] tok o x). }
    destruct x as [x |]; simpl.
    + unfold mbind, res_bind.
      destruct (Argparse.split_flags _ o x) as [last | e0] eqn:Hf.
      * assert (Some x = None
                \/ exists y r,
                    Some x = Some y
                    /\ Argparse.split_flags (Argparse.option_map_of []) o y = Ret r)
          as Hx by (right; eauto).
        destruct last as [o' |]; [| eexists; split; [done |]; by apply Hhelp].
        destruct rest as [| [v [| |]] rest'];
          (eexists; split; [done |]); first [by apply Hhelp | left; eauto].
      * exists e0. split; [done |]. left. apply (split_flags_raises _ o x _ Hf).
    + exists HelpExit. split; [done |]. apply Hhelp; auto.
  - exfalso.
    destruct (names_store [] tok a r o x eq_refl Hp Hsep) as (_ & Hin & _).
    by apply elem_of_nil in Hin.
  - right. by destruct x.
Qed.

Lemma classify_app_options pre l cs :
  forallb option_like pre = true ->
  Argparse.classify (Argparse.option_map_of []) l = Ret cs ->
  exists cs_pre,
    Argparse.classify (Argparse.option_map_of []) (pre ++ l) = Ret (cs_pre ++ cs)
    /\ Forall2 (fun tok c =>
                  fst c = tok
                  /\ exists t, snd c = Argparse.ClsO t
                     /\ Argparse.parse_optional (Argparse.option_map_of []) tok
                        = Ret (Some t)) pre cs_pre.
Proof.
  intros Hpre Hcl. induction pre as [| tok pre IH]; simpl.
  - exists []. split; [done | constructor].
  - simpl in Hpre. apply andb_prop in Hpre as [Htok Hpre].
    destruct (IH Hpre) as (cs_pre & Hcs & Hall).
    destruct (option_like_inv tok Htok) as [Hsep [t Ht]].
    apply String.eqb_neq in Hsep. rewrite Hsep, Ht.
    unfold mbind, res_bind. rewrite Hcs.
    exists ((tok, Argparse.ClsO t) :: cs_pre). split; [done |].
    constructor; [| done]. split; [done |]. eauto.
Qed.

(** The top-level loop over the argument strings before the action, all
    of them like options: the process ends there, with the help text
    only when one of them asks for help, or the strings are put aside
    and the loop goes on with what follows. *)
Lemma top_consume_options sub pre cs_pre cs :
  forallb option_like pre = true ->
  Forall2 (fun tok c =>
             fst c = tok
             /\ exists t, snd c = Argparse.ClsO t
                /\ Argparse.parse_optional (Argparse.option_map_of []) tok
                   = Ret (Some t)) pre cs_pre ->
  forall st,
    (exists e,
        Argparse.consume (Argparse.option_map_of []) (Some sub) (cs_pre ++ cs) st
        = Raise e
        /\ ((exists u, e = UsageExit u)
            \/ (e = HelpExit /\ exists tok, tok ∈ pre /\ asks_help tok = true)))
    \/ Argparse.consume (Argparse.option_map_of []) (Some sub) (cs_pre ++ cs) st
       = Argparse.consume (Argparse.option_map_of []) (Some sub) cs
           {| Argparse.ns := Argparse.ns st;
              Argparse.seen := Argparse.seen st;
              Argparse.extras := Argparse.extras st ++ pre;
              Argparse.unrecognized := Argparse.unrecognized st |}.
Proof.
  intros Hpre Hall. revert Hpre.
  induction Hall as [| tok [tok' c] pre cs_pre (Htok' & t & Hc & Ht) Hall IH];
    intros Hpre st.
  - right. simpl. rewrite app_nil_r. by destruct st.
  - simpl in Htok', Hc. subst tok' c.
    simpl in Hpre. apply andb_prop in Hpre as [Htok Hpre].
    destruct (top_consume_option sub tok (cs_pre ++ cs) st Htok)
      as (t' & Ht' & [(e & He & Hex) | Hnext]);
      rewrite Ht in Ht'; injection Ht' as <-.
    + left. exists e. split; [done |].
      destruct Hex as [Hu | [-> Hask]]; [by left |].
      right. split; [done |]. exists tok. split; [apply list_elem_of_here | done].
    + change (((tok, Argparse.ClsO t) :: cs_pre) ++ cs)
        with ((tok, Argparse.ClsO t) :: (cs_pre ++ cs)).
      rewrite Hnext.
      destruct (IH Hpre (Argparse.add_extra tok st))
        as [(e & He & Hex) | Hgo].
      * left. exists e. split; [done |].
        destruct Hex as [Hu | (-> & tok0 & Hin & Hask)]; [by left |].
        right. split; [done |]. exists tok0.
        split; [by apply list_elem_of_further | done].
      * right. rewrite Hgo. simpl. by rewrite <- app_assoc.
Qed.

(** [parse] on a command line that starts with strings like options:
    the process ends at one of them, or [parse] goes on with what
    follows and those strings put aside. *)
Lemma parse_after_options pre l cs :
  forallb option_like pre = true ->
  Argparse.classify (Argparse.option_map_of []) l = Ret cs ->
  (exists e,
      parse (pre ++ l) = Raise e
      /\ ((exists u, e = UsageExit u)
          \/ (e = HelpExit /\ exists tok, tok ∈ pre /\ asks_help tok = true)))
  \/ parse (pre ++ l)
     = (st ← Argparse.consume (Argparse.option_map_of [])
               (Some (Argparse.subparsers_action "action" sub_parsers)) cs
               {| Argparse.ns := {[ "action" := PyNone ]};
                  Argparse.seen := [];
                  Argparse.extras := pre;
                  Argparse.unrecognized := [] |};
        match Argparse.extras st ++ Argparse.unrecognized st with
        | [] => Ret (Argparse.ns st)
        | argv => Raise (UsageExit (UnrecognizedArguments argv))
        end).
Proof.
  intros Hpre Hcl.
  destruct (classify_app_options pre l cs Hpre Hcl) as (cs_pre & Hcs & Hall).
  unfold parse, Argparse.parse_args, Argparse.parse_known_args.
  rewrite Hcs. unfold mbind, res_bind. cbv beta iota.
  destruct (top_consume_options (Argparse.subparsers_action "action" sub_parsers)
              pre cs_pre cs Hpre Hall
              {| Argparse.ns := {[ "action" := PyNone ]};
                 Argparse.seen := [];
                 Argparse.extras := [];
                 Argparse.unrecognized := [] |}) as [(e & He & Hex) | Hgo].
  - left. exists e. rewrite He. done.
  - right. rewrite Hgo. simpl Argparse.extras. simpl Argparse.ns.
    simpl Argparse.seen. simpl Argparse.unrecognized.
    destruct (Argparse.consume _ _ cs _) as [st |]; [| done].
    change (Argparse.missing_required (Argparse.option_map_of []) (Argparse.seen st))
      with (@nil string).
    by destruct (Argparse.extras st ++ Argparse.unrecognized st).
Qed.

Lemma classify_cons m s rest :
  Argparse.classify m (s :: rest)
  = if String.eqb s "--"
    then Ret ((s, Argparse.ClsDash) :: map (fun x => (x, Argparse.ClsA)) rest)
    else t ← Argparse.parse_optional m s;
         cs ← Argparse.classify m rest;
         Ret ((s, match t with
                  | Some t => Argparse.ClsO t
                  | None => Argparse.ClsA
                  end) :: cs).
Proof. reflexivity. Qed.

(** The top-level loop at the action: the sub-parser action takes the
    string, and the strings that follow, whenever a string follows or
    the string is not the separator. *)
Lemma top_consume_action a rest cs st e :
  option_like a = false ->
  Argparse.classify (Argparse.option_map_of []) (a :: rest) = Ret cs ->
  Argparse.subparsers_action "action" sub_parsers a rest (Argparse.ns st)
  = Raise e ->
  a <> "--" \/ rest <> [] ->
  Argparse.consume (Argparse.option_map_of [])
    (Some (Argparse.subparsers_action "action" sub_parsers)) cs st = Raise e.
Proof.
  intros Ha Hcl Hsub Hne.
  pose proof (classify_fst _ _ _ Hcl) as Hfst.
  rewrite classify_cons in Hcl.
  destruct (String.eqb_spec a "--") as [-> | Hsep].
  - destruct Hne as [| Hne]; [done |].
    destruct rest as [| b rest]; [done |].
    simplify_eq.
    cbn [Argparse.consume Argparse.parser_nargs_matches map fst] in Hfst |- *.
    injection Hfst as Hfst. rewrite Hfst.
    unfold mbind, res_bind. by rewrite Hsub.
  - apply not_option_like_inv in Ha as [| Hp]; [done |].
    rewrite Hp in Hcl. unfold mbind, res_bind in Hcl.
    destruct (Argparse.classify _ rest) as [cs' |] eqn:Hcl'; [| done].
    simplify_eq.
    cbn [Argparse.consume Argparse.parser_nargs_matches map fst] in Hfst |- *.
    injection Hfst as Hfst. rewrite Hfst.
    unfold mbind, res_bind. by rewrite Hsub.
Qed.

Lemma action_is_not_option_like name p :
  Argparse.lookup_parser name sub_parsers = Some p ->
  option_like name = false /\ name <> "--".
Proof.
  intros Hl. destruct (sub_parsers_inv name p Hl) as [Hname _].
  destruct (not_startswith_dash name Hname) as [Hsep Hopt].
  unfold option_like. rewrite (Hopt _), andb_false_r.
  split; [done |]. by apply String.eqb_neq.
Qed.

(** How a failure of [parse] shows: [main] fails the same way before
    anything is started, and the exit status is that of the parser. *)
Lemma parse_exit_shown os_run w argv e (toks : list string) :
  parse argv = Raise e ->
  (exists u, e = UsageExit u)
  \/ (e = HelpExit /\ exists tok, tok ∈ toks /\ asks_help tok = true) ->
  parse argv = Raise e
  /\ main os_run argv w = (Raise e, w)
  /\ ((exists u, e = UsageExit u /\ exit_status (Raise e) = 2)
      \/ (e = HelpExit /\ exit_status (Raise e) = 0
          /\ exists tok, tok ∈ toks /\ asks_help tok = true)).
Proof.
  intros Hp He. split; [done |]. split; [by apply main_parse_raises |].
  destruct He as [[u ->] | (-> & Htok)]; [left; eauto | right; auto].
Qed.

(** C2 (as amended). For every action and every option of its parser:
    when no argument string after the action names the option, [parse]
    does not return, wherever the action stands, that is also when
    strings like options come before it.  [parse] ends the process
    before any command is built, [main] starts nothing, and the exit
    status is 2 with a usage error, unless an argument string before or
    after the action asks for help ([--help], [--h], [--he], [--hel],
    or [-h] alone or repeated), in which case it can be the help text
    with status 0. *)
Theorem missing_required_option_stops_parse
    (os_run : list string -> option Z) (w : world)
    (pre : list string) (name : string) (p : Argparse.arguments)
    (o : string) (r : bool) (rest : list string) :
  forallb option_like pre = true ->
  Argparse.lookup_parser name sub_parsers = Some p ->
  (o, r) ∈ p ->
  (forall tok, tok ∈ rest -> names_option o tok = false) ->
  exists e,
    parse (pre ++ name :: rest) = Raise e
    /\ main os_run (pre ++ name :: rest) w = (Raise e, w)
    /\ ((exists u, e = UsageExit u /\ exit_status (Raise e) = 2)
        \/ (e = HelpExit /\ exit_status (Raise e) = 0
            /\ exists tok, tok ∈ pre ++ rest /\ asks_help tok = true)).
Proof.
  intros Hpre Hl Hin Habsent.
  destruct (sub_parsers_inv name p Hl) as [_ Hwf].
  destruct (action_is_not_option_like name p Hl) as [Hname Hsep].
  destruct (sub_parser_requires p o r (Argparse.defaults_of p) rest Hwf Hin Habsent)
    as (e_sub & Hsub & He_sub).
  destruct (top_classify_total (name :: rest)) as [cs Hcs].
  destruct (parse_after_options pre (name :: rest) cs Hpre Hcs)
    as [(e & Hp & He) | Hgo].
  - exists e. apply parse_exit_shown; [done |].
    destruct He as [Hu | (-> & tok & Htok & Hask)]; [by left |].
    right. split; [done |]. exists tok. split; [| done].
    apply elem_of_app. by left.
  - exists e_sub. apply parse_exit_shown.
    + rewrite Hgo.
      rewrite (top_consume_action name rest cs _ e_sub Hname Hcs); [done | | by left].
      unfold Argparse.subparsers_action. rewrite Hl.
      unfold mbind, res_bind. by rewrite Hsub.
    + destruct He_sub as [Hu | (-> & tok & Htok & Hask)]; [by left |].
      right. split; [done |]. exists tok. split; [| done].
      apply elem_of_app. by right.
Qed.

Lemma missing_required_option_stops_parse_witness :
  exists e,
    parse ["--verbose"; "train"; "--path"; "p1"; "--name"; "job1"] = Raise e
    /\ main (fun _ => Some 0)
         ["--verbose"; "train"; "--path"; "p1"; "--name"; "job1"] []
       = (Raise e, [])
    /\ ((exists u, e = UsageExit u /\ exit_status (Raise e) = 2)
        \/ (e = HelpExit /\ exit_status (Raise e) = 0
            /\ exists tok, tok ∈ ["--verbose"; "--path"; "p1"; "--name"; "job1"]
                           /\ asks_help tok = true)).
Proof.
  apply (missing_required_option_stops_parse (fun _ => Some 0) []
           ["--verbose"] "train" train_parser "--bucket" true
           ["--path"; "p1"; "--name"; "job1"] eq_refl eq_refl).
  - apply list_elem_of_here.
  - intros tok Hin. rewrite !elem_of_cons, elem_of_nil in Hin.
    destruct Hin as [-> | [-> | [-> | [-> | []]]]]; reflexivity.
Defined.

(** C2 as stated fails when help is asked for: [train -h] does not name
    [--bucket], and the parser ends the process with status 0. *)
Lemma help_exits_with_status_zero :
  (forall tok, tok ∈ ["-h"] -> names_option "--bucket" tok = false)
  /\ parse ["train"; "-h"] = Raise HelpExit
  /\ main (fun _ => Some 0) ["train"; "-h"] [] = (Raise HelpExit, [])
  /\ exit_status (fst (main (fun _ => Some 0) ["train"; "-h"] [])) = 0.
Proof.
  split; [| by vm_compute].
  intros tok Hin. apply list_elem_of_singleton in Hin as ->. reflexivity.
Qed.

(** ** A missing or unrecognised action *)






(** * Further properties *)

(** ** The selection of [main], case by case *)

(** What [dispatch] does with a namespace: without the attribute
    [action] it raises [AttributeError]; with one of the five names it
    runs the function of that name; with any other value it raises
    [ValueError].  In the two failing cases nothing has been started. *)
Lemma dispatch_cases os_run (args : gmap string pyval) w :
  (args !! "action" = None
   /\ dispatch os_run args w = (Raise (AttributeError "action"), w))
  \/ (exists name deploy build,
        args !! "action" = Some (PyStr name)
        /\ (name, (deploy, build)) ∈ actions os_run
        /\ dispatch os_run args w = deploy args w)
  \/ (exists v,
        args !! "action" = Some v
        /\ (forall name deploy build,
              (name, (deploy, build)) ∈ actions os_run -> v <> PyStr name)
        /\ dispatch os_run args w
           = (Raise (ValueError
                       ("Unknown action " +:+ quote +:+ format_value v +:+ quote)),
              w)).
Proof.
  destruct (args !! "action") as [v |] eqn:Ha.
  2:{ left. split; [done |].
      unfold dispatch, action_is, lift, getattr, mbind, io_bind, res_bind.
      by rewrite Ha. }
  right.
  assert (forall lit, py_eq_str v lit = true -> v = PyStr lit) as Heq.
  { intros lit. destruct v as [| s |]; simpl; [done | | done].
    intros H. by apply String.eqb_eq in H as ->. }
  unfold dispatch, action_is, lift, getattr, mbind, io_bind, res_bind.
  rewrite Ha.
  destruct (py_eq_str v "local_train") eqn:E1.
  { left. apply Heq in E1 as ->. do 3 eexists. split; [done |].
    split; [| reflexivity]. unfold actions. apply list_elem_of_here. }
  destruct (py_eq_str v "train") eqn:E2.
  { left. apply Heq in E2 as ->. do 3 eexists. split; [done |].
    split; [| reflexivity]. unfold actions.
    apply list_elem_of_further, list_elem_of_here. }
  destruct (py_eq_str v "local_batch_train") eqn:E3.
  { left. apply Heq in E3 as ->. do 3 eexists. split; [done |].
    split; [| reflexivity]. unfold actions.
    do 2 apply list_elem_of_further. apply list_elem_of_here. }
  destruct (py_eq_str v "batch_train") eqn:E4.
  { left. apply Heq in E4 as ->. do 3 eexists. split; [done |].
    split; [| reflexivity]. unfold actions.
    do 3 apply list_elem_of_further. apply list_elem_of_here. }
  destruct (py_eq_str v "predict") eqn:E5.
  { left. apply Heq in E5 as ->. do 3 eexists. split; [done |].
    split; [| reflexivity]. unfold actions.
    do 4 apply list_elem_of_further. apply list_elem_of_here. }
  right. exists v. split; [done |]. split; [| reflexivity].
  intros name deploy build Hin ->. split_actions Hin; simpl in *;
    rewrite String.eqb_refl in *; done.
Qed.

(** X2. [dispatch] on a namespace without the attribute [action] raises
    [AttributeError]; on a namespace whose action is none of the five
    names (also [None]) it raises [ValueError] with the message
    [Unknown action "..."].  In both cases nothing is started. *)
Theorem dispatch_unknown_action (os_run : list string -> option Z)
    (args : gmap string pyval) (w : world) :
  (args !! "action" = None ->
   dispatch os_run args w = (Raise (AttributeError "action"), w))
  /\ (forall v,
        args !! "action" = Some v ->
        (forall name,
            name ∈ ["local_train"; "train"; "local_batch_train";
                    "batch_train"; "predict"] ->
            v <> PyStr name) ->
        dispatch os_run args w
        = (Raise (ValueError
                    ("Unknown action " +:+ quote +:+ format_value v +:+ quote)),
           w)).
Proof.
  split.
  - intros Ha.
    destruct (dispatch_cases os_run args w)
      as [[_ H] | [(n & d & b & Ha' & _) | (v & Ha' & _)]]; [done | |];
      by rewrite Ha in Ha'.
  - intros v Ha Hv.
    destruct (dispatch_cases os_run args w)
      as [[Ha' _] | [(n & d & b & Ha' & Hin & _) | (v' & Ha' & _ & H)]].
    + by rewrite Ha in Ha'.
    + rewrite Ha in Ha'. injection Ha' as ->. exfalso.
      apply (Hv n); [| done]. split_actions Hin; set_solver.
    + rewrite Ha in Ha'. by injection Ha' as ->.
Qed.

Lemma dispatch_unknown_action_witness :
  dispatch (fun _ => Some 0) {[ "action" := PyStr "deploy" ]} []
  = (Raise (ValueError ("Unknown action " +:+ quote +:+ "deploy" +:+ quote)), []).
Proof.
  apply (proj2 (dispatch_unknown_action (fun _ => Some 0)
                  {[ "action" := PyStr "deploy" ]} []) (PyStr "deploy"));
    [by vm_compute |].
  intros name Hin. rewrite !elem_of_cons, elem_of_nil in Hin.
  destruct Hin as [-> | [-> | [-> | [-> | [-> | []]]]]]; done.
Defined.

(** ** The commands and the namespace *)

(** X1. For the local_batch_train action with project [p] and dataset
    table [d] the command is the local_train command with the module
    [modeling.trainer.batch_model] in place of [modeling.trainer.model],
    followed by [--project=p] and [--dataset_table=d]; these sixteen
    strings are what the operating system receives. *)
Theorem local_batch_train_command_tokens (args : gmap string pyval)
    (project dataset_table : string) :
  args !! "project" = Some (PyStr project) ->
  args !! "dataset_table" = Some (PyStr dataset_table) ->
  exists cmd local_cmd,
    deploy_local_batch_train_command args = Ret cmd
    /\ deploy_local_train_command args = Ret local_cmd
    /\ cmd = <[8%nat := PyStr "modeling.trainer.batch_model"]> local_cmd
             ++ [PyStr ("--project=" +:+ project);
                 PyStr ("--dataset_table=" +:+ dataset_table)]
    /\ forall os_run w,
        launched_by (deploy_local_batch_train os_run args) w
          [["powershell.exe"; "gcloud"; "ai-platform"; "local"; "train";
            "--package-path"; "modeling";
            "--module-name"; "modeling.trainer.batch_model";
            "--job-dir"; "local-training-output";
            "--"; "--run_location=local"; "--bucket=None";
            "--project=" +:+ project;
            "--dataset_table=" +:+ dataset_table]].
Proof.
  intros Hp Hd. eexists. eexists.
  split. { unfold deploy_local_batch_train_command. read_attributes. reflexivity. }
  split; [reflexivity |]. split; [reflexivity |].
  intros os_run w.
  change (deploy_local_batch_train os_run args)
    with (run_checked os_run (deploy_local_batch_train_command args)).
  unfold deploy_local_batch_train_command. read_attributes.
  exact (run_checked_launched os_run (Ret _) w).
Qed.

Lemma local_batch_train_command_tokens_witness :
  exists cmd local_cmd,
    deploy_local_batch_train_command local_batch_train_example = Ret cmd
    /\ deploy_local_train_command local_batch_train_example = Ret local_cmd
    /\ cmd = <[8%nat := PyStr "modeling.trainer.batch_model"]> local_cmd
             ++ [PyStr "--project=proj"; PyStr "--dataset_table=ds.tbl"]
    /\ forall os_run w,
        launched_by (deploy_local_batch_train os_run local_batch_train_example) w
          [["powershell.exe"; "gcloud"; "ai-platform"; "local"; "train";
            "--package-path"; "modeling";
            "--module-name"; "modeling.trainer.batch_model";
            "--job-dir"; "local-training-output";
            "--"; "--run_location=local"; "--bucket=None";
            "--project=proj"; "--dataset_table=ds.tbl"]].
Proof.
  apply (local_batch_train_command_tokens local_batch_train_example
           "proj" "ds.tbl" eq_refl eq_refl).
Defined.

Ltac option_is_some H o :=
  let v := fresh "v" in
  let E := fresh "E" in
  pose proof (H o true ltac:(set_solver)) as [v E];
  change (Argparse.dest_of o)
    with (ltac:(let d := eval vm_compute in (Argparse.dest_of o) in exact d)) in E.

Ltac missing_option o :=
  exists o, true; split; [set_solver |];
  change (Argparse.dest_of o)
    with (ltac:(let d := eval vm_compute in (Argparse.dest_of o) in exact d));
  repeat split; try done.

(** X3. Each command reads exactly the options that [parse] declares
    for its action: when the namespace has all of them the command is
    built, and when building fails it is an [AttributeError] for a
    declared option that the namespace lacks, raised by the [deploy_*]
    function before anything is started. *)
Theorem command_needs_its_options (os_run : list string -> option Z)
    (name : string) (p : Argparse.arguments) deploy build
    (args : gmap string pyval) :
  Argparse.lookup_parser name sub_parsers = Some p ->
  (name, (deploy, build)) ∈ actions os_run ->
  ((forall o r, (o, r) ∈ p -> is_Some (args !! Argparse.dest_of o)) ->
   exists cmd, build args = Ret cmd)
  /\ (forall e,
        build args = Raise e ->
        exists o r,
          (o, r) ∈ p
          /\ args !! Argparse.dest_of o = None
          /\ e = AttributeError (Argparse.dest_of o)
          /\ forall w, deploy args w = (Raise e, w)).
Proof.
  intros Hp Hin.
  assert (forall e, build args = Raise e ->
                    forall w, deploy args w = (Raise e, w)) as Hrun.
  { intros e He w. rewrite (actions_run_checked os_run name deploy build Hin), He.
    reflexivity. }
  split.
  - intros Hall. split_actions Hin; vm_compute in Hp; simplify_eq.
    + eexists. reflexivity.
    + option_is_some Hall "--bucket". option_is_some Hall "--path".
      option_is_some Hall "--name".
      unfold deploy_trainer_command. read_attributes. eauto.
    + option_is_some Hall "--project". option_is_some Hall "--dataset_table".
      unfold deploy_local_batch_train_command. read_attributes. eauto.
    + option_is_some Hall "--bucket". option_is_some Hall "--name".
      option_is_some Hall "--project". option_is_some Hall "--dataset_table".
      unfold deploy_batch_trainer_command. read_attributes. eauto.
    + option_is_some Hall "--version". option_is_some Hall "--model".
      option_is_some Hall "--origin". option_is_some Hall "--package-path".
      unfold deploy_predictor_command. read_attributes. eauto.
  - intros e He. specialize (Hrun e). pose proof He as He0.
    split_actions Hin; vm_compute in Hp; simplify_eq.
    + unfold deploy_trainer_command, getattr, mbind, res_bind in He.
      destruct (args !! "name") eqn:E1;
        [| simplify_eq; missing_option "--name"; by apply Hrun].
      destruct (args !! "bucket") eqn:E2;
        [| simplify_eq; missing_option "--bucket"; by apply Hrun].
      destruct (args !! "path") eqn:E3;
        [done | simplify_eq; missing_option "--path"; by apply Hrun].
    + unfold deploy_local_batch_train_command, getattr, mbind, res_bind in He.
      destruct (args !! "project") eqn:E1;
        [| simplify_eq; missing_option "--project"; by apply Hrun].
      destruct (args !! "dataset_table") eqn:E2;
        [done | simplify_eq; missing_option "--dataset_table"; by apply Hrun].
    + unfold deploy_batch_trainer_command, getattr, mbind, res_bind in He.
      destruct (args !! "name") eqn:E1;
        [| simplify_eq; missing_option "--name"; by apply Hrun].
      destruct (args !! "bucket") eqn:E2;
        [| simplify_eq; missing_option "--bucket"; by apply Hrun].
      destruct (args !! "project") eqn:E3;
        [| simplify_eq; missing_option "--project"; by apply Hrun].
      destruct (args !! "dataset_table") eqn:E4;
        [done | simplify_eq; missing_option "--dataset_table"; by apply Hrun].
    + unfold deploy_predictor_command, getattr, mbind, res_bind in He.
      destruct (args !! "version") eqn:E1;
        [| simplify_eq; missing_option "--version"; by apply Hrun].
      destruct (args !! "model") eqn:E2;
        [| simplify_eq; missing_option "--model"; by apply Hrun].
      destruct (args !! "origin") eqn:E3;
        [| simplify_eq; missing_option "--origin"; by apply Hrun].
      destruct (args !! "package_path") eqn:E4;
        [done | simplify_eq; missing_option "--package-path"; by apply Hrun].
Qed.

Lemma command_needs_its_options_witness :
  exists o r,
    (o, r) ∈ train_parser
    /\ train_without_name !! Argparse.dest_of o = None
    /\ AttributeError "name" = AttributeError (Argparse.dest_of o)
    /\ forall w,
        deploy_trainer (fun _ => Some 0) train_without_name w
        = (Raise (AttributeError "name"), w).
Proof.
  apply (proj2 (command_needs_its_options (fun _ => Some 0) "train" train_parser
                  _ _ train_without_name eq_refl (train_in_actions _))
           (AttributeError "name")).
  reflexivity.
Defined.

Lemma run_checked_type_error os_run cmd w :
  command_strings cmd = None ->
  run_checked os_run (Ret cmd) w = (Raise TypeError, w).
Proof.
  intros H. unfold run_checked, subprocess_run, lift, mbind, io_bind.
  by rewrite H.
Qed.

(** X4. The tokens of a built command are all strings, except that
    train and batch_train pass the job name as it is: their command
    consists of strings exactly when the name is a string.  A command
    with a token that is not a string is a [TypeError] and nothing is
    started. *)
Theorem command_strings_iff_name (os_run : list string -> option Z)
    (name : string) deploy build (args : gmap string pyval) (cmd : list pyval) :
  (name, (deploy, build)) ∈ actions os_run ->
  build args = Ret cmd ->
  ((exists strs, command_strings cmd = Some strs)
   <-> (name = "train" \/ name = "batch_train" ->
        exists n, args !! "name" = Some (PyStr n)))
  /\ (command_strings cmd = None ->
      forall w, deploy args w = (Raise TypeError, w)).
Proof.
  intros Hin Hb.
  assert (command_strings cmd = None ->
          forall w, deploy args w = (Raise TypeError, w)) as Hrun.
  { intros Hn w. rewrite (actions_run_checked os_run name deploy build Hin), Hb.
    by apply run_checked_type_error. }
  split; [| exact Hrun]. clear Hrun.
  split_actions Hin.
  - injection Hb as <-. split; [by intros _ [|] | intros _; simpl; eauto].
  - unfold deploy_trainer_command, getattr, mbind, res_bind in Hb.
    destruct (args !! "name") as [[| n |] |]; [| | | done];
      destruct (args !! "bucket"); try done;
      destruct (args !! "path"); try done; injection Hb as <-; simpl.
    + split; [by intros [? ?] | intros H; destruct H as [? ?]; [by left | done]].
    + split; eauto.
    + split; [by intros [? ?] | intros H; destruct H as [? ?]; [by left | done]].
  - unfold deploy_local_batch_train_command, getattr, mbind, res_bind in Hb.
    destruct (args !! "project"); [| done].
    destruct (args !! "dataset_table"); [| done]. injection Hb as <-.
    split; [by intros _ [|] | intros _; simpl; eauto].
  - unfold deploy_batch_trainer_command, getattr, mbind, res_bind in Hb.
    destruct (args !! "name") as [[| n |] |]; [| | | done];
      destruct (args !! "bucket"); try done;
      destruct (args !! "project"); try done;
      destruct (args !! "dataset_table"); try done; injection Hb as <-; simpl.
    + split; [by intros [? ?] | intros H; destruct H as [? ?]; [by right | done]].
    + split; eauto.
    + split; [by intros [? ?] | intros H; destruct H as [? ?]; [by right | done]].
  - unfold deploy_predictor_command, getattr, mbind, res_bind in Hb.
    destruct (args !! "version"); [| done].
    destruct (args !! "model"); [| done].
    destruct (args !! "origin"); [| done].
    destruct (args !! "package_path"); [| done]. injection Hb as <-.
    split; [by intros _ [|] | intros _; simpl; eauto].
Qed.

Lemma command_strings_iff_name_witness :
  exists cmd,
    deploy_trainer_command train_with_none_name = Ret cmd
    /\ ((exists strs, command_strings cmd = Some strs)
        <-> ("train" = "train" \/ "train" = "batch_train" ->
             exists n, train_with_none_name !! "name" = Some (PyStr n)))
    /\ (command_strings cmd = None ->
        forall w, deploy_trainer (fun _ => Some 0) train_with_none_name w
                  = (Raise TypeError, w)).
Proof.
  eexists. split; [reflexivity |].
  apply (command_strings_iff_name (fun _ => Some 0) "train" _ _
           train_with_none_name _ (train_in_actions _)).
  reflexivity.
Defined.

(** ** What [main] starts *)

Lemma built_command_head os_run name deploy build (args : gmap string pyval) cmd :
  (name, (deploy, build)) ∈ actions os_run ->
  build args = Ret cmd ->
  exists rest, cmd = PyStr "powershell.exe" :: PyStr "gcloud" :: rest.
Proof.
  intros Hin Hb. split_actions Hin.
  - injection Hb as <-. eauto.
  - unfold deploy_trainer_command, getattr, mbind, res_bind in Hb.
    repeat case_match; simplify_eq. eauto.
  - unfold deploy_local_batch_train_command, getattr, mbind, res_bind in Hb.
    repeat case_match; simplify_eq. eauto.
  - unfold deploy_batch_trainer_command, getattr, mbind, res_bind in Hb.
    repeat case_match; simplify_eq. eauto.
  - unfold deploy_predictor_command, getattr, mbind, res_bind in Hb.
    repeat case_match; simplify_eq. eauto.
Qed.

(** X5. Whatever the command line and the operating system, a run of
    [main] starts nothing or exactly one command, and that command
    starts with [powershell.exe gcloud]. *)
Theorem main_starts_at_most_one_command (os_run : list string -> option Z)
    (argv : list string) (w : world) :
  snd (main os_run argv w) = w
  \/ exists rest,
      snd (main os_run argv w) = w ++ ["powershell.exe" :: "gcloud" :: rest].
Proof.
  destruct (parse argv) as [args | e] eqn:Hp.
  2:{ left. by rewrite (main_parse_raises os_run argv e w Hp). }
  rewrite (main_parsed os_run argv args w Hp).
  destruct (dispatch_cases os_run args w)
    as [[_ ->] | [(name & deploy & build & _ & Hin & ->) | (v & _ & _ & ->)]];
    [by left | | by left].
  rewrite (actions_run_checked os_run name deploy build Hin).
  pose proof (run_checked_launched os_run (build args) w) as Hl.
  unfold launched_by in Hl. rewrite Hl.
  destruct (build args) as [cmd | e] eqn:Hb; [| left; apply app_nil_r].
  destruct (command_strings cmd) as [strs |] eqn:Hs; [| left; apply app_nil_r].
  right.
  destruct (built_command_head os_run name deploy build args cmd Hin Hb)
    as [rest ->].
  simpl in Hs. destruct (command_strings rest) as [l |]; [| done].
  injection Hs as <-. eauto.
Qed.

(** ** The failures of [parse] *)

Lemma consume_raises_exit m pos toks :
  (forall sub s rest namespace e,
      pos = Some sub -> sub s rest namespace = Raise e -> parser_exit e) ->
  forall st e, Argparse.consume m pos toks st = Raise e -> parser_exit e.
Proof.
  intros Hpos.
  induction toks as [toks IH] using shorter_list_ind.
  intros st e Hc.
  destruct toks as [| [s c] rest]; [done |].
  assert (forall st0, Argparse.consume m pos rest st0 = Raise e -> parser_exit e)
    as Hskip.
  { intros st0. apply IH. simpl. lia. }
  assert (match pos with
          | Some sub =>
              if Argparse.parser_nargs_matches ((s, c) :: rest)
              then '(ns', unrec) ← sub s (map fst rest) (Argparse.ns st);
                   Ret {| Argparse.ns := ns'; Argparse.seen := Argparse.seen st;
                          Argparse.extras := Argparse.extras st;
                          Argparse.unrecognized :=
                            Argparse.unrecognized st ++ unrec |}
              else Argparse.consume m pos rest (Argparse.add_extra s st)
          | None => Argparse.consume m pos rest (Argparse.add_extra s st)
          end = Raise e -> parser_exit e) as Hposn.
  { destruct pos as [sub |]; [| apply Hskip].
    destruct (Argparse.parser_nargs_matches _); [| apply Hskip].
    unfold mbind, res_bind.
    destruct (sub s (map fst rest) (Argparse.ns st)) as [[ns' unrec] | e'] eqn:Hs;
      [done |].
    intros [= <-]. by apply (Hpos sub s (map fst rest) (Argparse.ns st)). }
  destruct c as [| | [[[[| a r] |] o] [x |]]]; simpl in Hc;
    try (by apply Hposn); try (by apply (Hskip _ Hc)).
  - unfold mbind, res_bind in Hc.
    destruct (Argparse.split_flags m o x) as [last | e0] eqn:Hf.
    + destruct last as [o' |]; [| simplify_eq; by left].
      destruct rest as [| [v [| |]] rest']; simplify_eq;
        first [by left | right; eauto].
    + simplify_eq. right. by apply (split_flags_raises m o x).
  - simplify_eq. by left.
  - destruct rest as [| [v [| |]] rest']; simplify_eq;
      try (right; eauto; fail).
    apply (IH rest' ltac:(simpl; lia) _ e Hc).
Qed.

Lemma parse_known_args_raises_exit m pos defaults arg_strings e :
  (forall sub s rest namespace e,
      pos = Some sub -> sub s rest namespace = Raise e -> parser_exit e) ->
  Argparse.parse_known_args m pos defaults arg_strings = Raise e ->
  parser_exit e.
Proof.
  intros Hpos. unfold Argparse.parse_known_args, mbind, res_bind.
  destruct (Argparse.classify m arg_strings) as [toks | e0] eqn:Hcl.
  2:{ intros [= <-]. right. apply (classify_raises _ _ _ Hcl). }
  destruct (Argparse.consume m pos toks _) as [st | e0] eqn:Hc.
  2:{ intros [= <-]. by apply (consume_raises_exit m pos toks Hpos _ _ Hc). }
  destruct (Argparse.missing_required m _); [done |].
  intros [= <-]. right. eauto.
Qed.

Lemma subparsers_action_raises_exit dest parsers s rest namespace e :
  Argparse.subparsers_action dest parsers s rest namespace = Raise e ->
  parser_exit e.
Proof.
  unfold Argparse.subparsers_action.
  destruct (Argparse.lookup_parser s parsers) as [p |];
    [| intros [= <-]; right; eauto].
  unfold mbind, res_bind.
  destruct (Argparse.parse_known_args _ None _ rest) as [[sub r] | e0] eqn:Hs;
    [done |].
  intros [= <-]. by apply (parse_known_args_raises_exit _ None _ _ _ ltac:(done) Hs).
Qed.

(** X6. When [parse] fails it is by the help text or by a usage error,
    never by another exception: the exit status is 0 or 2, and [main]
    has started nothing. *)
Theorem parse_fails_by_exit_only (argv : list string) (e : exn) :
  parse argv = Raise e ->
  parser_exit e
  /\ (exit_status (Raise e) = 0 \/ exit_status (Raise e) = 2)
  /\ forall os_run w, main os_run argv w = (Raise e, w).
Proof.
  intros Hp.
  assert (parser_exit e) as He.
  { unfold parse, Argparse.parse_args, mbind, res_bind in Hp.
    destruct (Argparse.parse_known_args _ _ _ argv) as [[namespace rest] | e0] eqn:Hk.
    - destruct rest; [done |]. injection Hp as <-. right. eauto.
    - injection Hp as <-.
      refine (parse_known_args_raises_exit _ _ _ _ _ _ Hk).
      intros sub s rest namespace e [= <-].
      apply subparsers_action_raises_exit. }
  split; [exact He |]. split.
  - destruct He as [-> | [u ->]]; auto.
  - intros os_run w. by apply main_parse_raises.
Qed.

Lemma parse_fails_by_exit_only_witness :
  parse ["train"]
  = Raise (UsageExit (RequiredArguments ["--bucket"; "--path"; "--name"]))
  /\ parser_exit (UsageExit (RequiredArguments ["--bucket"; "--path"; "--name"]))
  /\ (exit_status
        (Raise (UsageExit (RequiredArguments ["--bucket"; "--path"; "--name"]))) = 0
      \/ exit_status
           (Raise (UsageExit (RequiredArguments ["--bucket"; "--path"; "--name"])))
         = 2)
  /\ forall os_run w,
      main os_run ["train"] w
      = (Raise (UsageExit (RequiredArguments ["--bucket"; "--path"; "--name"])), w).
Proof.
  split; [by vm_compute |].
  apply (parse_fails_by_exit_only ["train"]). by vm_compute.
Defined.

(** ** The namespace [parse] returns *)

(** A property of the parse state that adding an extra string and storing
    the value of a classified store option keep is kept by the loop of a
    sub-parser. *)
Lemma consume_preserves m (P : Argparse.parse_state -> Prop) toks :
  (forall s st, P st -> P (Argparse.add_extra s st)) ->
  (forall tok a r o e v st,
      (tok, Argparse.ClsO (Some (Argparse.Store a r), o, e)) ∈ toks ->
      P st -> P (Argparse.store o v st)) ->
  forall st st', Argparse.consume m None toks st = Ret st' -> P st -> P st'.
Proof.
  induction toks as [toks IH] using shorter_list_ind.
  intros Hextra Hstore st st' Hc HP.
  destruct toks as [| [s c] rest]; [simpl in Hc; by simplify_eq |].
  assert (forall rest',
             (length rest' < length ((s, c) :: rest))%nat ->
             rest' ⊆ (s, c) :: rest ->
             forall st0, Argparse.consume m None rest' st0 = Ret st' ->
                         P st0 -> P st') as Hnext.
  { intros rest' Hlen Hsub st0 Hc0 HP0.
    refine (IH rest' Hlen Hextra _ st0 st' Hc0 HP0).
    intros tok a r o e v st1 Hin. apply (Hstore tok a r o e v st1). by apply Hsub. }
  assert (rest ⊆ (s, c) :: rest) as Hsub by set_solver.
  destruct c as [| | [[[[| a r] |] o] [e |]]]; simpl in Hc;
    try (by apply (Hnext rest ltac:(simpl; lia) Hsub _ Hc), Hextra); try done.
  - unfold mbind, res_bind in Hc.
    destruct (Argparse.split_flags m o e) as [[o' |] |]; [| done | done].
    by destruct rest as [| [v [| |]] rest'].
  - apply (Hnext rest ltac:(simpl; lia) Hsub _ Hc).
    apply (Hstore s a r o (Some e)); [apply list_elem_of_here | done].
  - destruct rest as [| [v [| |]] rest']; try done.
    apply (Hnext rest' ltac:(simpl; lia) ltac:(set_solver) _ Hc).
    apply (Hstore s a r o None); [apply list_elem_of_here | done].
Qed.

Lemma classified_store p l toks tok a r o e :
  required_long_options p = true ->
  Argparse.classify (Argparse.option_map_of p) l = Ret toks ->
  (tok, Argparse.ClsO (Some (Argparse.Store a r), o, e)) ∈ toks ->
  (o, r) ∈ p.
Proof.
  intros Hwf Hcl Hin.
  destruct (classify_option _ _ _ _ _ Hcl Hin) as (_ & Hsep & Hp).
  by destruct (names_store p tok a r o e Hwf Hp Hsep) as (_ & ? & _).
Qed.

Lemma defaults_of_dom p k :
  is_Some (Argparse.defaults_of p !! k) ->
  exists o r, (o, r) ∈ p /\ k = Argparse.dest_of o.
Proof.
  induction p as [| [o r] p IH]; simpl.
  - rewrite lookup_empty. by intros [? ?].
  - destruct (decide (Argparse.dest_of o = k)) as [<- | Hne].
    + intros _. exists o, r. split; [apply list_elem_of_here | done].
    + rewrite lookup_insert_ne by done. intros H.
      destruct (IH H) as (o' & r' & Hin & ->).
      exists o', r'. split; [by apply list_elem_of_further | done].
Qed.

Lemma missing_required_nil p seen o :
  Argparse.missing_required (Argparse.option_map_of p) seen = [] ->
  (o, true) ∈ p -> o ∈ seen.
Proof.
  intros Hnil Hin. destruct (decide (o ∈ seen)) as [| Hno]; [done |].
  assert (o ∈ Argparse.missing_required (Argparse.option_map_of p) seen) as H.
  { unfold Argparse.missing_required. apply list_elem_of_omap.
    exists (o, Argparse.Store o true). split.
    - unfold Argparse.option_map_of. do 2 apply list_elem_of_further.
      apply list_elem_of_fmap. by exists (o, true).
    - by rewrite bool_decide_eq_false_2. }
  rewrite Hnil in H. by apply elem_of_nil in H.
Qed.

(** A sub-parser that returns has bound every one of its options to the
    value of an argument string, and its namespace has no other
    attribute. *)
Lemma sub_parser_returns p rest subns left_over :
  required_long_options p = true ->
  Argparse.parse_known_args (Argparse.option_map_of p) None
    (Argparse.defaults_of p) rest = Ret (subns, left_over) ->
  (forall o r, (o, r) ∈ p ->
     exists s, subns !! Argparse.dest_of o = Some (Argparse.get_values s))
  /\ (forall k, is_Some (subns !! k) ->
                exists o r, (o, r) ∈ p /\ k = Argparse.dest_of o).
Proof.
  intros Hwf. unfold Argparse.parse_known_args, mbind, res_bind.
  destruct (Argparse.classify _ rest) as [toks |] eqn:Hcl; [| done].
  destruct (Argparse.consume _ None toks _) as [st |] eqn:Hc; [| done].
  destruct (Argparse.missing_required _ _) eqn:Hm; [| done].
  intros [= <- <-]. split.
  - intros o r Hin.
    destruct (required_long_options_elem p o r Hwf Hin) as (_ & _ & ->).
    pose proof (missing_required_nil p _ o Hm Hin) as Hseen.
    clear Hin. revert o Hseen.
    refine (consume_preserves _
              (fun st => forall o, o ∈ Argparse.seen st ->
                 exists s, Argparse.ns st !! Argparse.dest_of o
                           = Some (Argparse.get_values s))
              toks _ _ _ _ Hc _).
    + done.
    + intros tok a r o e v st0 _ HP o' Ho'. simpl in *.
      destruct (decide (Argparse.dest_of o = Argparse.dest_of o')) as [Heq | Hne].
      * rewrite Heq, lookup_insert_eq. eauto.
      * rewrite lookup_insert_ne by done. apply HP.
        apply elem_of_cons in Ho' as [-> | Ho']; done.
    + simpl. intros o Ho. by apply elem_of_nil in Ho.
  - refine (consume_preserves _
              (fun st => forall k, is_Some (Argparse.ns st !! k) ->
                 exists o r, (o, r) ∈ p /\ k = Argparse.dest_of o)
              toks _ _ _ _ Hc _).
    + done.
    + intros tok a r o e v st0 Hin HP k. simpl.
      destruct (decide (Argparse.dest_of o = k)) as [<- | Hne].
      * intros _. exists o, r. split; [| done].
        by apply (classified_store p rest toks tok a r o e).
      * rewrite lookup_insert_ne by done. apply HP.
    + simpl. apply defaults_of_dom.
Qed.

(** The loop of the top-level parser, which has no store option: either
    no argument string reached the sub-parser action and the namespace
    is unchanged, or the sub-parser action returned the namespace. *)
Lemma top_consume_returns m sub toks :
  (forall tok a r o e,
      (tok, Argparse.ClsO (Some (Argparse.Store a r), o, e)) ∉ toks) ->
  forall st st',
    Argparse.consume m (Some sub) toks st = Ret st' ->
    (Argparse.ns st' = Argparse.ns st
     /\ Argparse.unrecognized st' = Argparse.unrecognized st)
    \/ exists s rest unrec,
        sub s rest (Argparse.ns st) = Ret (Argparse.ns st', unrec)
        /\ Argparse.unrecognized st' = Argparse.unrecognized st ++ unrec.
Proof.
  induction toks as [| [s c] rest IH]; intros Hno st st' Hc.
  - simpl in Hc. simplify_eq. by left.
  - assert (forall tok a r o e,
               (tok, Argparse.ClsO (Some (Argparse.Store a r), o, e)) ∉ rest)
      as Hno'.
    { intros tok a r o e Hin. apply (Hno tok a r o e).
      by apply list_elem_of_further. }
    assert (forall st0,
               Argparse.consume m (Some sub) rest st0 = Ret st' ->
               Argparse.ns st0 = Argparse.ns st ->
               Argparse.unrecognized st0 = Argparse.unrecognized st ->
               (Argparse.ns st' = Argparse.ns st
                /\ Argparse.unrecognized st' = Argparse.unrecognized st)
               \/ exists s rest unrec,
                   sub s rest (Argparse.ns st) = Ret (Argparse.ns st', unrec)
                   /\ Argparse.unrecognized st'
                      = Argparse.unrecognized st ++ unrec) as Hskip.
    { intros st0 Hc0 Hns Hun. rewrite <- Hns, <- Hun. by apply IH. }
    assert ((if Argparse.parser_nargs_matches ((s, c) :: rest)
             then '(ns', unrec) ← sub s (map fst rest) (Argparse.ns st);
                  Ret {| Argparse.ns := ns'; Argparse.seen := Argparse.seen st;
                         Argparse.extras := Argparse.extras st;
                         Argparse.unrecognized :=
                           Argparse.unrecognized st ++ unrec |}
             else Argparse.consume m (Some sub) rest (Argparse.add_extra s st))
            = Ret st' ->
            (Argparse.ns st' = Argparse.ns st
             /\ Argparse.unrecognized st' = Argparse.unrecognized st)
            \/ exists s rest unrec,
                sub s rest (Argparse.ns st) = Ret (Argparse.ns st', unrec)
                /\ Argparse.unrecognized st'
                   = Argparse.unrecognized st ++ unrec) as Hposn.
    { destruct (Argparse.parser_nargs_matches _); [| intros H; by apply (Hskip _ H)].
      unfold mbind, res_bind.
      destruct (sub s (map fst rest) (Argparse.ns st)) as [[ns' unrec] |] eqn:Hs;
        [| done].
      intros [= <-]. right. exists s, (map fst rest), unrec. by rewrite Hs. }
    destruct c as [| | [[[[| a r] |] o] [e |]]]; simpl in Hc;
      try (by apply Hposn); try (by apply (Hskip _ Hc)); try done.
    + unfold mbind, res_bind in Hc.
      destruct (Argparse.split_flags m o e) as [[o' |] |]; [| done | done].
      by destruct rest as [| [v [| |]] rest'].
    + exfalso. apply (Hno s a r o (Some e)). apply list_elem_of_here.
    + exfalso. apply (Hno s a r o None). apply list_elem_of_here.
Qed.

Lemma top_classify_no_store l toks tok a r o e :
  Argparse.classify (Argparse.option_map_of []) l = Ret toks ->
  (tok, Argparse.ClsO (Some (Argparse.Store a r), o, e)) ∉ toks.
Proof.
  intros Hcl Hin.
  pose proof (classified_store [] l toks tok a r o e eq_refl Hcl Hin) as H.
  by apply elem_of_nil in H.
Qed.

(** When [parse] returns, either no action was given or the sub-parser
    action returned that namespace and left no string over. *)
Lemma parse_returns_inv argv args :
  parse argv = Ret args ->
  args = {[ "action" := PyNone ]}
  \/ exists s rest,
      Argparse.subparsers_action "action" sub_parsers s rest
        {[ "action" := PyNone ]} = Ret (args, []).
Proof.
  unfold parse, Argparse.parse_args, Argparse.parse_known_args, mbind, res_bind.
  destruct (Argparse.classify _ argv) as [toks |] eqn:Hcl; [| done].
  destruct (Argparse.consume _ _ toks _) as [st |] eqn:Hc; [| done].
  change (Argparse.missing_required (Argparse.option_map_of []) (Argparse.seen st))
    with (@nil string).
  destruct (Argparse.extras st ++ Argparse.unrecognized st) eqn:Hleft; [| done].
  intros [= <-].
  apply app_eq_nil in Hleft as [_ Hun].
  apply top_consume_returns in Hc
    as [[Hns _] | (s & rest & unrec & Hsub & Hun')].
  - by left.
  - right. exists s, rest. simpl in Hun', Hsub. rewrite Hun in Hun'.
    by rewrite <- Hun' in Hsub.
  - intros tok a r o e. by apply (top_classify_no_store argv).
Qed.

Lemma action_is_no_option name p o r :
  Argparse.lookup_parser name sub_parsers = Some p ->
  (o, r) ∈ p ->
  Argparse.dest_of o <> "action".
Proof.
  unfold sub_parsers. intros H Hin. simpl in H.
  repeat match type of H with
         | context [String.eqb ?a name] =>
             destruct (String.eqb_spec a name) as [<- |];
             [injection H as <-;
              repeat (apply elem_of_cons in Hin as [Hin | Hin];
                      [by simplify_eq |]);
              by apply elem_of_nil in Hin |]
         end.
  done.
Qed.

(** The namespace of a run with an action: the action is one of the five
    names, every option of its parser is bound to the value of an
    argument string (the string, or the empty list for [--]), and there
    is no other attribute. *)
Lemma parse_returns_args argv args :
  parse argv = Ret args ->
  args = {[ "action" := PyNone ]}
  \/ exists name p,
      Argparse.lookup_parser name sub_parsers = Some p
      /\ args !! "action" = Some (PyStr name)
      /\ (forall o r, (o, r) ∈ p ->
                      exists s, args !! Argparse.dest_of o
                                = Some (Argparse.get_values s))
      /\ (forall k, is_Some (args !! k) ->
                    k = "action"
                    \/ exists o r, (o, r) ∈ p /\ k = Argparse.dest_of o).
Proof.
  intros Hp. apply parse_returns_inv in Hp as [-> | (s & rest & Hsub)]; [by left |].
  right. unfold Argparse.subparsers_action, mbind, res_bind in Hsub.
  destruct (Argparse.lookup_parser s sub_parsers) as [p |] eqn:Hl; [| done].
  destruct (Argparse.parse_known_args _ None _ rest) as [[subns left_over] |] eqn:Hk;
    [| done].
  injection Hsub as <- ->.
  destruct (sub_parsers_inv s p Hl) as [_ Hwf].
  destruct (sub_parser_returns p rest subns [] Hwf Hk) as [Hbound Hdom].
  assert (subns !! "action" = None) as Hnone.
  { destruct (subns !! "action") eqn:E; [| done].
    destruct (Hdom "action" ltac:(by rewrite E)) as (o & r & Hin & Heq).
    by destruct (action_is_no_option s p o r Hl Hin). }
  exists s, p. split; [done |]. split; [| split].
  - rewrite lookup_union_r by done. by rewrite lookup_insert_eq.
  - intros o r Hin. destruct (Hbound o r Hin) as [v Hv]. exists v.
    by apply lookup_union_Some_l.
  - intros k [v Hk']. apply lookup_union_Some_raw in Hk' as [Hk' | [_ Hk']].
    + right. apply Hdom. by rewrite Hk'.
    + left. destruct (decide (k = "action")) as [| Hne]; [done |].
      rewrite lookup_insert_ne, lookup_singleton_ne in Hk' by done. done.
Qed.

(** ** The launcher of every command *)

(** A command is built when the namespace has the options of the
    action. *)
Lemma command_built os_run name p deploy build (args : gmap string pyval) :
  Argparse.lookup_parser name sub_parsers = Some p ->
  (name, (deploy, build)) ∈ actions os_run ->
  (forall o r, (o, r) ∈ p -> is_Some (args !! Argparse.dest_of o)) ->
  exists cmd, build args = Ret cmd.
Proof.
  intros Hp Hin Hall. split_actions Hin; vm_compute in Hp; simplify_eq.
  - eexists. reflexivity.
  - option_is_some Hall "--bucket". option_is_some Hall "--path".
    option_is_some Hall "--name".
    unfold deploy_trainer_command. read_attributes. eauto.
  - option_is_some Hall "--project". option_is_some Hall "--dataset_table".
    unfold deploy_local_batch_train_command. read_attributes. eauto.
  - option_is_some Hall "--bucket". option_is_some Hall "--name".
    option_is_some Hall "--project". option_is_some Hall "--dataset_table".
    unfold deploy_batch_trainer_command. read_attributes. eauto.
  - option_is_some Hall "--version". option_is_some Hall "--model".
    option_is_some Hall "--origin". option_is_some Hall "--package-path".
    unfold deploy_predictor_command. read_attributes. eauto.
Qed.

(** A command is built from every namespace that [parse] returns with
    the action. *)
Lemma command_built_from_parse os_run name deploy build argv args :
  (name, (deploy, build)) ∈ actions os_run ->
  parse argv = Ret args ->
  args !! "action" = Some (PyStr name) ->
  exists cmd, build args = Ret cmd.
Proof.
  intros Hin Hp Ha.
  apply parse_returns_args in Hp as [-> | (name' & p & Hl & Ha' & Hbound & _)];
    [by vm_compute in Ha |].
  rewrite Ha in Ha'. injection Ha' as <-.
  apply (command_built os_run name p deploy build args Hl Hin).
  intros o r Hor. destruct (Hbound o r Hor) as [s Hs]. by rewrite Hs.
Qed.

(** C9. Each of the five functions, for every namespace, builds a
    command or raises [AttributeError] for an attribute the namespace
    lacks, and every command built starts with [powershell.exe] and
    [gcloud], followed by the tokens of the gcloud sub-command of the
    action: [ai-platform local train] for local_train and
    local_batch_train, [ai-platform jobs submit training] for train and
    batch_train, [beta ai-platform versions create] for predict.  The
    command is built whenever the namespace has the options of the
    action, so from every namespace [parse] returns with that action. *)
Theorem commands_start_with_launcher (os_run : list string -> option Z)
    (name : string) deploy build (args : gmap string pyval) :
  (name, (deploy, build)) ∈ actions os_run ->
  ((exists cmd rest,
       build args = Ret cmd
       /\ cmd = PyStr "powershell.exe" :: PyStr "gcloud" :: rest
       /\ ((name ∈ ["local_train"; "local_batch_train"]
            /\ exists r, rest = PyStr "ai-platform" :: PyStr "local"
                                :: PyStr "train" :: r)
           \/ (name ∈ ["train"; "batch_train"]
               /\ exists r, rest = PyStr "ai-platform" :: PyStr "jobs"
                                   :: PyStr "submit" :: PyStr "training" :: r)
           \/ (name = "predict"
               /\ exists r, rest = PyStr "beta" :: PyStr "ai-platform"
                                   :: PyStr "versions" :: PyStr "create" :: r)))
   \/ (exists a, args !! a = None /\ build args = Raise (AttributeError a)))
  /\ (forall p,
        Argparse.lookup_parser name sub_parsers = Some p ->
        (forall o r, (o, r) ∈ p -> is_Some (args !! Argparse.dest_of o)) ->
        exists cmd, build args = Ret cmd)
  /\ (forall argv,
        parse argv = Ret args ->
        args !! "action" = Some (PyStr name) ->
        exists cmd, build args = Ret cmd).
Proof.
  intros Hin. split; [| split].
  - split_actions Hin.
    + left. do 2 eexists. split; [reflexivity |]. split; [reflexivity |].
      left. split; [set_solver | eauto].
    + unfold deploy_trainer_command, getattr, mbind, res_bind.
      destruct (args !! "name") eqn:E1; [| right; eauto].
      destruct (args !! "bucket") eqn:E2; [| right; eauto].
      destruct (args !! "path") eqn:E3; [| right; eauto].
      left. do 2 eexists. split; [reflexivity |]. split; [reflexivity |].
      right; left. split; [set_solver | eauto].
    + unfold deploy_local_batch_train_command, getattr, mbind, res_bind.
      destruct (args !! "project") eqn:E1; [| right; eauto].
      destruct (args !! "dataset_table") eqn:E2; [| right; eauto].
      left. do 2 eexists. split; [reflexivity |]. split; [reflexivity |].
      left. split; [set_solver | eauto].
    + unfold deploy_batch_trainer_command, getattr, mbind, res_bind.
      destruct (args !! "name") eqn:E1; [| right; eauto].
      destruct (args !! "bucket") eqn:E2; [| right; eauto].
      destruct (args !! "project") eqn:E3; [| right; eauto].
      destruct (args !! "dataset_table") eqn:E4; [| right; eauto].
      left. do 2 eexists. split; [reflexivity |]. split; [reflexivity |].
      right; left. split; [set_solver | eauto].
    + unfold deploy_predictor_command, getattr, mbind, res_bind.
      destruct (args !! "version") eqn:E1; [| right; eauto].
      destruct (args !! "model") eqn:E2; [| right; eauto].
      destruct (args !! "origin") eqn:E3; [| right; eauto].
      destruct (args !! "package_path") eqn:E4; [| right; eauto].
      left. do 2 eexists. split; [reflexivity |]. split; [reflexivity |].
      right; right. split; [done | eauto].
  - intros p Hl Hall. by apply (command_built os_run name p deploy build args).
  - intros argv Hp Ha.
    by apply (command_built_from_parse os_run name deploy build argv args).
Qed.

Ltac in_actions :=
  unfold actions;
  repeat first [apply list_elem_of_here | apply list_elem_of_further].

Lemma commands_start_with_launcher_witness :
  (exists cmd rest,
      deploy_local_train_command local_train_example = Ret cmd
      /\ cmd = PyStr "powershell.exe" :: PyStr "gcloud" :: rest)
  /\ (exists cmd rest,
        deploy_trainer_command train_example = Ret cmd
        /\ cmd = PyStr "powershell.exe" :: PyStr "gcloud" :: rest)
  /\ (exists cmd rest,
        deploy_local_batch_train_command local_batch_train_example = Ret cmd
        /\ cmd = PyStr "powershell.exe" :: PyStr "gcloud" :: rest)
  /\ (exists cmd rest,
        deploy_batch_trainer_command batch_train_example = Ret cmd
        /\ cmd = PyStr "powershell.exe" :: PyStr "gcloud" :: rest)
  /\ (exists cmd rest,
        deploy_predictor_command predict_example = Ret cmd
        /\ cmd = PyStr "powershell.exe" :: PyStr "gcloud" :: rest).
Proof.
  split; [| split; [| split; [| split]]].
  - destruct (proj1 (commands_start_with_launcher (fun _ => Some 0) "local_train" _ _
                       local_train_example ltac:(in_actions)))
      as [(cmd & rest & Hb & Hcmd & _) | (a & _ & Hb)];
      [exists cmd, rest; by split | by vm_compute in Hb].
  - destruct (proj1 (commands_start_with_launcher (fun _ => Some 0) "train" _ _
                       train_example ltac:(in_actions)))
      as [(cmd & rest & Hb & Hcmd & _) | (a & _ & Hb)];
      [exists cmd, rest; by split | by vm_compute in Hb].
  - destruct (proj1 (commands_start_with_launcher (fun _ => Some 0) "local_batch_train" _ _
                       local_batch_train_example ltac:(in_actions)))
      as [(cmd & rest & Hb & Hcmd & _) | (a & _ & Hb)];
      [exists cmd, rest; by split | by vm_compute in Hb].
  - destruct (proj1 (commands_start_with_launcher (fun _ => Some 0) "batch_train" _ _
                       batch_train_example ltac:(in_actions)))
      as [(cmd & rest & Hb & Hcmd & _) | (a & _ & Hb)];
      [exists cmd, rest; by split | by vm_compute in Hb].
  - destruct (proj1 (commands_start_with_launcher (fun _ => Some 0) "predict" _ _
                       predict_example ltac:(in_actions)))
      as [(cmd & rest & Hb & Hcmd & _) | (a & _ & Hb)];
      [exists cmd, rest; by split | by vm_compute in Hb].
Defined.








(** ** Command lines that [parse] accepts *)

Ltac launched_from_parse Hparse name :=
  let os_run := fresh "os_run" in
  let w := fresh "w" in
  intros os_run w;
  unfold launched_by;
  rewrite (main_parsed os_run _ _ w Hparse);
  match goal with
  | |- context [dispatch os_run ?args w] =>
      lazymatch eval unfold actions in (actions os_run) with
      | context [(name, (?deploy, ?build))] =>
          let Hin := fresh in
          assert ((name, (deploy, build)) ∈ actions os_run) as Hin
            by (unfold actions; set_solver);
          rewrite (dispatch_action os_run args name deploy build w
                     ltac:(vm_compute; reflexivity) Hin);
          rewrite (actions_run_checked os_run name deploy build Hin);
          let cmd := eval vm_compute in (build args) in
          change (build args) with cmd;
          exact (run_checked_launched os_run cmd w)
      end
  end.

Lemma get_values_string s : s <> "--" -> Argparse.get_values s = PyStr s.
Proof.
  intros H. unfold Argparse.get_values. apply String.eqb_neq in H. by rewrite H.
Qed.









(** ** Help before the action *)

(** X13. [-h] or [--help] as the first argument prints the help text and
    ends the process with status 0 whatever follows; no action is needed
    and nothing is started. *)
Theorem help_before_the_action (rest : list string) :
  parse ("-h" :: rest) = Raise HelpExit
  /\ parse ("--help" :: rest) = Raise HelpExit
  /\ forall os_run w,
      main os_run ("-h" :: rest) w = (Raise HelpExit, w)
      /\ main os_run ("--help" :: rest) w = (Raise HelpExit, w).
Proof.
  assert (parse ("-h" :: rest) = Raise HelpExit
          /\ parse ("--help" :: rest) = Raise HelpExit) as [H1 H2].
  { destruct (top_classify_total rest) as [cs Hcs].
    unfold parse, Argparse.parse_args, Argparse.parse_known_args.
    split; simpl Argparse.classify;
      unfold mbind, res_bind; rewrite Hcs; reflexivity. }
  split; [exact H1 |]. split; [exact H2 |].
  intros os_run w. split; by apply main_parse_raises.
Qed.

(** ** The action without options *)

Lemma consume_without_store m toks :
  (forall tok a r o e,
      (tok, Argparse.ClsO (Some (Argparse.Store a r), o, e)) ∉ toks) ->
  forall st st',
    Argparse.consume m None toks st = Ret st' ->
    Argparse.ns st' = Argparse.ns st
    /\ Argparse.extras st' = Argparse.extras st ++ map fst toks.
Proof.
  induction toks as [| [s c] rest IH]; intros Hno st st' Hc.
  - simpl in Hc. simplify_eq. by rewrite app_nil_r.
  - assert (forall tok a r o e,
               (tok, Argparse.ClsO (Some (Argparse.Store a r), o, e)) ∉ rest)
      as Hno'.
    { intros tok a r o e Hin. apply (Hno tok a r o e).
      by apply list_elem_of_further. }
    assert (Argparse.consume m None rest (Argparse.add_extra s st) = Ret st' ->
            Argparse.ns st' = Argparse.ns st
            /\ Argparse.extras st'
               = Argparse.extras st ++ map fst ((s, c) :: rest)) as Hskip.
    { intros Hc0. destruct (IH Hno' _ _ Hc0) as [-> ->]. simpl.
      by rewrite <- app_assoc. }
    destruct c as [| | [[[[| a r] |] o] [e |]]]; simpl in Hc;
      try (by apply Hskip); try done.
    + unfold mbind, res_bind in Hc.
      destruct (Argparse.split_flags m o e) as [[o' |] |]; [| done | done].
      by destruct rest as [| [v [| |]] rest'].
    + exfalso. apply (Hno s a r o (Some e)). apply list_elem_of_here.
    + exfalso. apply (Hno s a r o None). apply list_elem_of_here.
Qed.

(** X14. The local_train action takes no argument: [parse] returns for
    [local_train] followed by further strings only when there are none,
    and the namespace then holds the action alone. *)
Theorem local_train_takes_no_arguments (rest : list string)
    (args : gmap string pyval) :
  parse ("local_train" :: rest) = Ret args ->
  rest = [] /\ args = {[ "action" := PyStr "local_train" ]}.
Proof.
  rewrite parse_first_positional by reflexivity.
  unfold Argparse.subparsers_action.
  change (Argparse.lookup_parser "local_train" sub_parsers)
    with (Some local_train_parser).
  unfold Argparse.parse_known_args, mbind, res_bind.
  destruct (Argparse.classify _ rest) as [toks |] eqn:Hcl; [| done].
  destruct (Argparse.consume _ None toks _) as [st |] eqn:Hc; [| done].
  change (Argparse.missing_required (Argparse.option_map_of local_train_parser)
            (Argparse.seen st)) with (@nil string).
  destruct (Argparse.extras st ++ Argparse.unrecognized st) eqn:Hleft; [| done].
  intros [= <-].
  apply app_eq_nil in Hleft as [Hex _].
  apply consume_without_store in Hc as [Hns Hextras].
  2:{ intros tok a r o e. by apply (top_classify_no_store rest). }
  rewrite Hex in Hextras. simpl in Hextras, Hns.
  symmetry in Hextras. rewrite (classify_fst _ _ _ Hcl) in Hextras.
  split; [done |]. rewrite Hns. by vm_compute.
Qed.

Lemma local_train_takes_no_arguments_witness :
  parse ["local_train"] = Ret {[ "action" := PyStr "local_train" ]}
  /\ @nil string = []
  /\ {[ "action" := PyStr "local_train" ]}
     = ({[ "action" := PyStr "local_train" ]} : gmap string pyval).
Proof.
  split; [by vm_compute |].
  apply (local_train_takes_no_arguments [] {[ "action" := PyStr "local_train" ]}).
  by vm_compute.
Defined.

(** ** Values given after the option *)

(** The classification of a literal argument string is computed. *)
Ltac classify_literal :=
  match goal with
  | |- context [Argparse.classify ?m (?s :: ?l)] =>
      rewrite (classify_cons m s l);
      let b := eval vm_compute in (String.eqb s "--") in
      change (String.eqb s "--") with b; cbv iota;
      let v := eval vm_compute in (Argparse.parse_optional m s) in
      change (Argparse.parse_optional m s) with v
  end.

(** A value that does not start with [-] is an argument. *)
Ltac classify_value H :=
  match goal with
  | |- context [Argparse.classify ?m (?s :: ?l)] =>
      rewrite (classify_cons m s l);
      rewrite (proj1 (not_startswith_dash s H));
      rewrite (proj2 (not_startswith_dash s H) m)
  end.

(** X15. [train --bucket b --path p --name n], with the values given as
    separate strings, is accepted when no value starts with [-]: the
    namespace binds them and [main] starts the train command. *)
Theorem train_separate_values (bucket path name : string) :
  Str.startswith bucket "-" = false ->
  Str.startswith path "-" = false ->
  Str.startswith name "-" = false ->
  let argv := ["train"; "--bucket"; bucket; "--path"; path; "--name"; name] in
  parse argv
  = Ret {[ "action" := PyStr "train"; "bucket" := PyStr bucket;
           "path" := PyStr path; "name" := PyStr name ]}
  /\ forall os_run w,
      launched_by (main os_run argv) w
        [["powershell.exe"; "gcloud"; "ai-platform";
          "jobs"; "submit"; "training"; name;
          "--package-path"; "modeling";
          "--module-name"; "modeling.trainer.model";
          "--staging-bucket"; "gs://" +:+ bucket;
          "--python-version"; "3.7";
          "--runtime-version"; "1.15";
          "--"; "--bucket=" +:+ bucket; "--path=" +:+ path]].
Proof.
  intros Hb Hp Hn argv.
  assert (parse argv
          = Ret {[ "action" := PyStr "train"; "bucket" := PyStr bucket;
                   "path" := PyStr path; "name" := PyStr name ]}) as Hparse.
  { unfold argv. rewrite parse_first_positional by reflexivity.
    unfold Argparse.subparsers_action.
    change (Argparse.lookup_parser "train" sub_parsers) with (Some train_parser).
    unfold Argparse.parse_known_args.
    classify_literal. classify_value Hb.
    classify_literal. classify_value Hp.
    classify_literal. classify_value Hn.
    rewrite <- (get_values_string bucket), <- (get_values_string path),
      <- (get_values_string name)
      by (apply String.eqb_neq; by apply not_startswith_dash).
    vm_compute. reflexivity. }
  split; [exact Hparse |]. launched_from_parse Hparse "train".
Qed.

Lemma train_separate_values_witness :
  let argv := ["train"; "--bucket"; "b1"; "--path"; "p1"; "--name"; "job1"] in
  parse argv
  = Ret {[ "action" := PyStr "train"; "bucket" := PyStr "b1";
           "path" := PyStr "p1"; "name" := PyStr "job1" ]}
  /\ forall os_run w,
      launched_by (main os_run argv) w
        [["powershell.exe"; "gcloud"; "ai-platform";
          "jobs"; "submit"; "training"; "job1";
          "--package-path"; "modeling";
          "--module-name"; "modeling.trainer.model";
          "--staging-bucket"; "gs://b1";
          "--python-version"; "3.7";
          "--runtime-version"; "1.15";
          "--"; "--bucket=b1"; "--path=p1"]].
Proof.
  apply (train_separate_values "b1" "p1" "job1" eq_refl eq_refl eq_refl).
Defined.




